(** * python-hosts: the hosts-file entry list and its merge algorithm

    A shallow embedding of [python_hosts/hosts.py] (classes [HostsEntry] and
    [Hosts]) together with the properties its specification states about
    [add], [exists], [remove_all_matching], [str_to_hostentry], [write] and
    [import_file].

    Conventions of the embedding.
    - A Python [str] is a [string]; a list is a [list]; a field that may hold
      [None] is an [option].
    - Python truthiness is written out: [None], the empty string and the empty
      list are falsy.
    - A call that can raise returns a [result]: [Ok v] or [Raise e].
    - [HostsEntry] defines no [__eq__], so [==] on entries (the test made by
      [list.remove]) is object identity.  Every entry carries the identity of
      its object ([ident]); two entries are the same object exactly when they
      are equal as records. *)

From Stdlib Require Import List String Ascii Bool Arith Lia.
Import ListNotations.
Open Scope string_scope.
Open Scope list_scope.

(** ** Exceptions and results *)

Inductive exn : Type :=
| Exception (msg : string)
| InvalidIPv4Address
| InvalidIPv6Address
| TypeError
| IndexError
| ValueError
| IOError.

Inductive result (A : Type) : Type :=
| Ok (a : A)
| Raise (e : exn).

Arguments Ok {A} a.
Arguments Raise {A} e.

Definition bind {A B : Type} (m : result A) (k : A -> result B) : result B :=
  match m with
  | Ok a => k a
  | Raise e => Raise e
  end.

Notation "x <- m ;; k" := (bind m (fun x => k))
  (at level 61, m at next level, right associativity).
Notation "' p <- m ;; k" := (bind m (fun x => match x with p => k end))
  (at level 61, p pattern, m at next level, right associativity).

(** ** Python string primitives *)

(** The whitespace of [str.strip], [str.rstrip] and [str.split] on a byte
    string: tab, line feed, vertical tab, form feed, carriage return, space. *)
Definition is_space (c : ascii) : bool :=
  let n := nat_of_ascii c in (((9 <=? n) && (n <=? 13)) || (n =? 32))%nat.

Definition str_empty (s : string) : bool :=
  match s with
  | EmptyString => true
  | String _ _ => false
  end.

(** [s.lstrip()] *)
Fixpoint lstrip (s : string) : string :=
  match s with
  | EmptyString => EmptyString
  | String c s' => if is_space c then lstrip s' else s
  end.

(** [s.rstrip()] *)
Fixpoint rstrip (s : string) : string :=
  match s with
  | EmptyString => EmptyString
  | String c s' =>
      let r := rstrip s' in
      if is_space c && str_empty r then EmptyString else String c r
  end.

(** [s.strip()] *)
Definition strip (s : string) : string := lstrip (rstrip s).

(** [s.split()]: the maximal runs of non-whitespace characters, in order.
    [tok] is the run being read. *)
Fixpoint split_go (tok : string) (s : string) : list string :=
  match s with
  | EmptyString => if str_empty tok then [] else [tok]
  | String c s' =>
      if is_space c
      then (if str_empty tok then split_go EmptyString s'
            else tok :: split_go EmptyString s')
      else split_go (tok ++ String c EmptyString) s'
  end.

Definition split (s : string) : list string := split_go EmptyString s.

(** [sep.join(l)] *)
Fixpoint join (sep : string) (l : list string) : string :=
  match l with
  | [] => EmptyString
  | [x] => x
  | x :: rest => x ++ sep ++ join sep rest
  end.

(** [s.startswith(p)] *)
Definition startswith (p s : string) : bool := prefix p s.

(** [a in b] for two strings: [a] occurs in [b] as a substring. *)
Fixpoint str_contains (a b : string) : bool :=
  if prefix a b then true
  else match b with
       | EmptyString => false
       | String _ b' => str_contains a b'
       end.

(** [s.partition(c)[0]]: the part of [s] before the first [c]. *)
Fixpoint partition_head (c : ascii) (s : string) : string :=
  match s with
  | EmptyString => EmptyString
  | String d s' => if Ascii.eqb d c then EmptyString else String d (partition_head c s')
  end.

(** [x in l] for a string and a list of strings. *)
Definition str_in (x : string) (l : list string) : bool :=
  existsb (String.eqb x) l.

(** Truthiness of an optional string and of an optional list. *)
Definition truthy_str (o : option string) : bool :=
  match o with
  | Some s => negb (str_empty s)
  | None => false
  end.

Definition truthy_list {A : Type} (o : option (list A)) : bool :=
  match o with
  | Some (_ :: _) => true
  | _ => false
  end.

(** ** HostsEntry *)

Inductive EntryType : Type := ipv4 | ipv6 | comment | blank.

Definition EntryType_eqb (a b : EntryType) : bool :=
  match a, b with
  | ipv4, ipv4 | ipv6, ipv6 | comment, comment | blank, blank => true
  | _, _ => false
  end.

(** The four slots of the class ([entry_comment] is the slot [comment]) and
    the identity of the object. *)
Record HostsEntry : Type := mkHostsEntry {
  ident : nat;
  entry_type : EntryType;
  address : option string;
  entry_comment : option string;
  names : option (list string)
}.

Definition HostsEntry_eq_dec (x y : HostsEntry) : {x = y} + {x <> y}.
Proof.
  repeat decide equality.
Defined.

(** [x.address == a] for a string [a]. *)
Definition address_is (a : string) (x : HostsEntry) : bool :=
  match address x with
  | Some b => String.eqb b a
  | None => false
  end.

(** [name in x.names]; a [None] in the slot is not iterable. *)
Definition name_in_names (name : string) (x : HostsEntry) : result bool :=
  match names x with
  | Some l => Ok (str_in name l)
  | None => Raise TypeError
  end.

(** ** Hosts *)

Record Hosts : Type := mkHosts {
  entries : list HostsEntry;
  hosts_path : string
}.

Definition with_entries (self : Hosts) (l : list HostsEntry) : Hosts :=
  mkHosts l (hosts_path self).

(** A list comprehension [[x for x in l if cond(x)]] whose condition can
    raise. *)
Fixpoint comprehension (cond : HostsEntry -> result bool) (l : list HostsEntry)
  : result (list HostsEntry) :=
  match l with
  | [] => Ok []
  | x :: rest =>
      b <- cond x ;;
      kept <- comprehension cond rest ;;
      Ok (if b then x :: kept else kept)
  end.

(** [l.remove(x)]: drops the first element equal to [x]; [ValueError] when
    there is none. *)
Fixpoint list_remove (x : HostsEntry) (l : list HostsEntry) : result (list HostsEntry) :=
  match l with
  | [] => Raise ValueError
  | y :: rest =>
      if HostsEntry_eq_dec y x then Ok rest
      else rest' <- list_remove x rest ;; Ok (y :: rest')
  end.

(** [for item_to_remove in to_remove: self.entries.remove(item_to_remove)] *)
Fixpoint remove_each (to_remove : list HostsEntry) (l : list HostsEntry)
  : result (list HostsEntry) :=
  match to_remove with
  | [] => Ok l
  | x :: rest => l' <- list_remove x l ;; remove_each rest l'
  end.

Definition remove_all_matching (self : Hosts) (address name : option string)
  : result Hosts :=
  to_remove <-
    match address, name with
    | Some a, Some n =>
        if truthy_str address && truthy_str name then
          comprehension
            (fun x => if address_is a x then name_in_names n x else Ok false)
            (entries self)
        else if truthy_str address then
          Ok (filter (address_is a) (entries self))
        else if truthy_str name then
          comprehension (name_in_names n) (entries self)
        else Ok []
    | Some a, None =>
        if truthy_str address then Ok (filter (address_is a) (entries self))
        else Ok []
    | None, Some n =>
        if truthy_str name then comprehension (name_in_names n) (entries self)
        else Ok []
    | None, None => Ok []
    end ;;
  l <- remove_each to_remove (entries self) ;;
  Ok (with_entries self l).

(** [Hosts.exists]: the inner loop over [names] for one entry. *)
Fixpoint exists_names (names : list string) (entry : HostsEntry) : result bool :=
  match names with
  | [] => Ok false
  | name :: rest =>
      b <- name_in_names name entry ;;
      if b then Ok true else exists_names rest entry
  end.

Fixpoint exists_loop (l : list HostsEntry) (address : option string)
    (names : option (list string)) : result bool :=
  match l with
  | [] => Ok false
  | entry :: rest =>
      if truthy_str address
         && match address with Some a => address_is a entry | None => false end
      then Ok true
      else
        found <- match names with
                 | Some ns => if truthy_list names then exists_names ns entry else Ok false
                 | None => Ok false
                 end ;;
        if found then Ok true else exists_loop rest address names
  end.

Definition Hosts_exists (self : Hosts) (address : option string)
    (names : option (list string)) : result bool :=
  exists_loop (entries self) address names.

(** [Hosts.dedupe_list]: keeps the first occurrence of every element;
    [seen] is the set of elements met so far. *)
Fixpoint dedupe_from (seen : list string) (seq : list string) : list string :=
  match seq with
  | [] => []
  | x :: rest =>
      if str_in x seen then dedupe_from seen rest
      else x :: dedupe_from (x :: seen) rest
  end.

Definition dedupe_list (seq : list string) : list string := dedupe_from [] seq.

(** ** Hosts.add *)

(** The dictionary [add] returns. *)
Record AddResult : Type := mkAddResult {
  ipv4_count : nat;
  ipv6_count : nat;
  invalid_count : nat;
  duplicate_count : nat;
  replaced_count : nat
}.

(** What the first loop of [add] changes: the object itself (through
    [remove_all_matching]), [import_entries] and two of the counters. *)
Record AddState : Type := mkAddState {
  st_self : Hosts;
  st_import : list HostsEntry;
  st_duplicate : nat;
  st_replaced : nat
}.

Definition count_duplicate (st : AddState) : AddState :=
  mkAddState (st_self st) (st_import st) (S (st_duplicate st)) (st_replaced st).

Definition count_replaced (st : AddState) : AddState :=
  mkAddState (st_self st) (st_import st) (st_duplicate st) (S (st_replaced st)).

Definition import_append (entry : HostsEntry) (st : AddState) : AddState :=
  mkAddState (st_self st) (st_import st ++ [entry]) (st_duplicate st) (st_replaced st).

Definition set_self (self : Hosts) (st : AddState) : AddState :=
  mkAddState self (st_import st) (st_duplicate st) (st_replaced st).

(** [[x.address for x in self.entries if x.address]] *)
Fixpoint existing_addresses_of (l : list HostsEntry) : list string :=
  match l with
  | [] => []
  | x :: rest =>
      match address x with
      | Some a => if truthy_str (address x) then a :: existing_addresses_of rest
                  else existing_addresses_of rest
      | None => existing_addresses_of rest
      end
  end.

(** The loop that collects the names of the entries, before [dedupe_list]. *)
Fixpoint collect_names (l : list HostsEntry) : list string :=
  match l with
  | [] => []
  | item :: rest =>
      match names item with
      | Some ns =>
          if truthy_list (names item) && (1 <? List.length ns)%nat
          then ns ++ collect_names rest
          else
            match ns with
            | name0 :: _ => name0 :: collect_names rest
            | [] => collect_names rest
            end
      | None => collect_names rest
      end
  end.

Definition existing_names_of (l : list HostsEntry) : list string :=
  dedupe_list (collect_names l).

Definition block_addresses : list string := ["0.0.0.0"; "127.0.0.1"].

(** What the body of [for entry in entries] does to the loop itself. *)
Inductive ctl : Type := Next | Break.

Section AddLoop.

Variable existing_addresses : list string.
Variable existing_names : list string.
Variable force : bool.

(** Block address, more than one name: [for name in entry.names].  The
    boolean is [found_name]. *)
Fixpoint scan_block_names (entry : HostsEntry) (ns : list string) (st : AddState)
  : result (bool * AddState) :=
  match ns with
  | [] => Ok (false, st)
  | name :: rest =>
      if str_in name existing_names then
        if force then
          self' <- remove_all_matching (st_self st) None (Some name) ;;
          Ok (true, import_append entry (set_self self' st))
        else Ok (true, count_duplicate st)
      else scan_block_names entry rest st
  end.

(** [for sublist in existing_names: if name in sublist: ...]: whether the
    inner loop is left by one of its [break]s. *)
Definition overlaps (name : string) : bool :=
  existsb (fun sublist => str_contains name sublist) existing_names.

(** New address: [for name in entry.names] with its inner [for ... else]. *)
Fixpoint scan_overlap (entry : HostsEntry) (ns : list string) (st : AddState)
  : result AddState :=
  match ns with
  | [] => Ok st
  | name :: rest =>
      if overlaps name then
        if negb force then scan_overlap entry rest (count_duplicate st)
        else
          self' <- remove_all_matching (st_self st) None (Some name) ;;
          scan_overlap entry rest
            (import_append entry (count_replaced (set_self self' st)))
      else Ok (import_append entry st)
  end.

(** The body of [for entry in entries]. *)
Definition add_entry (st : AddState) (entry : HostsEntry) : result (ctl * AddState) :=
  if match address entry with Some a => str_in a block_addresses | None => false end
  then
    match names entry with
    | None => Raise TypeError
    | Some ns =>
        if (1 <? List.length ns)%nat then
          '(found_name, st') <- scan_block_names entry ns st ;;
          if found_name then Ok (Break, st')
          else Ok (Next, import_append entry st')
        else
          match ns with
          | [] => Raise IndexError
          | name0 :: _ =>
              if str_in name0 existing_names then Ok (Next, count_duplicate st)
              else Ok (Next, import_append entry st)
          end
    end
  else if match address entry with
          | Some a => str_in a existing_addresses
          | None => false
          end
  then
    if negb force then Ok (Next, count_duplicate st)
    else
      self' <- remove_all_matching (st_self st) (address entry) None ;;
      Ok (Next, import_append entry (count_replaced (set_self self' st)))
  else
    match names entry with
    | None => Raise TypeError
    | Some ns => st' <- scan_overlap entry ns st ;; Ok (Next, st')
    end.

Fixpoint add_loop (st : AddState) (candidates : list HostsEntry) : result AddState :=
  match candidates with
  | [] => Ok st
  | entry :: rest =>
      '(c, st') <- add_entry st entry ;;
      match c with
      | Break => Ok st'
      | Next => add_loop st' rest
      end
  end.

End AddLoop.

(** The first loop of [add], from the snapshot to the end of
    [for entry in entries]. *)
Definition add_dispose (self : Hosts) (candidates : list HostsEntry) (force : bool)
  : result AddState :=
  add_loop (existing_addresses_of (entries self)) (existing_names_of (entries self))
    force (mkAddState self [] 0 0) candidates.

(** The second loop, [for item in import_entries]: the entries appended and
    the two counters. *)
Fixpoint add_commit (import_entries : list HostsEntry) (l : list HostsEntry) (c4 c6 : nat)
  : list HostsEntry * nat * nat :=
  match import_entries with
  | [] => (l, c4, c6)
  | item :: rest =>
      match entry_type item with
      | ipv4 => add_commit rest (l ++ [item]) (S c4) c6
      | ipv6 => add_commit rest (l ++ [item]) c4 (S c6)
      | _ => add_commit rest l c4 c6
      end
  end.

Definition add (self : Hosts) (candidates : list HostsEntry) (force : bool)
  : result (Hosts * AddResult) :=
  st <- add_dispose self candidates force ;;
  let '(l, c4, c6) := add_commit (st_import st) (entries (st_self st)) 0 0 in
  Ok (with_entries (st_self st) l,
      mkAddResult c4 c6 0 (st_duplicate st) (st_replaced st)).

(** ** The code that calls [utils.py] and the file system *)

Definition TAB : string := String "009"%char EmptyString.
Definition NL : string := String "010"%char EmptyString.

(** What [str_to_hostentry] returns: an entry, [None] (the name list was
    refused and the function fell off its end) or [False]. *)
Inductive parsed : Type :=
| Parsed (e : HostsEntry)
| ReturnedNone
| ReturnedFalse.

(** [if import_entry:] *)
Definition parsed_truthy (p : parsed) : option HostsEntry :=
  match p with
  | Parsed e => Some e
  | _ => None
  end.

(** The dictionary [write] returns. *)
Record WriteResult : Type := mkWriteResult {
  total_written : nat;
  comments_written : nat;
  blanks_written : nat;
  ipv4_entries_written : nat;
  ipv6_entries_written : nat
}.

(** What [write] and [import_file] see of the file system: the text of each
    file that exists, and the answers of [is_readable] and [is_writeable]. *)
Record FileSystem : Type := mkFileSystem {
  file : string -> option string;
  readable : string -> bool;
  writeable : string -> bool
}.

Definition path_exists (fs : FileSystem) (path : string) : bool :=
  match file fs path with
  | Some _ => true
  | None => false
  end.

Definition put_file (fs : FileSystem) (path text : string) : FileSystem :=
  mkFileSystem (fun p => if String.eqb p path then Some text else file fs p)
    (readable fs) (writeable fs).

(** [for line in infile]: the lines of a text, each with its line feed. *)
Fixpoint lines_go (cur : string) (s : string) : list string :=
  match s with
  | EmptyString => if str_empty cur then [] else [cur]
  | String c s' =>
      if Ascii.eqb c "010"%char then (cur ++ NL)%string :: lines_go EmptyString s'
      else lines_go (cur ++ String c EmptyString) s'
  end.

Definition file_lines (text : string) : list string := lines_go EmptyString text.

(** ["{0}\t{1}\n".format(line.address, ' '.join(line.names))] *)
Definition format_address_line (line : HostsEntry) : result string :=
  match names line with
  | None => Raise TypeError
  | Some ns =>
      Ok (match address line with Some a => a | None => "None" end
          ++ TAB ++ join " " ns ++ NL)%string
  end.

(** The state of the loop of [write]: the text written so far, the loop
    variable [written_count] and the four counters. *)
Record WriteState : Type := mkWriteState {
  w_text : string;
  w_written_count : nat;
  w_comments : nat;
  w_blanks : nat;
  w_ipv4 : nat;
  w_ipv6 : nat
}.

Definition write_entry (index : nat) (st : WriteState) (line : HostsEntry)
  : result WriteState :=
  match entry_type line with
  | comment =>
      match entry_comment line with
      | Some c =>
          Ok (mkWriteState (w_text st ++ c) index (S (w_comments st)) (w_blanks st)
                (w_ipv4 st) (w_ipv6 st))
      | None => Raise TypeError
      end
  | blank =>
      Ok (mkWriteState (w_text st ++ NL) index (w_comments st) (S (w_blanks st))
            (w_ipv4 st) (w_ipv6 st))
  | ipv4 =>
      text <- format_address_line line ;;
      Ok (mkWriteState (w_text st ++ text) index (w_comments st) (w_blanks st)
            (S (w_ipv4 st)) (w_ipv6 st))
  | ipv6 =>
      text <- format_address_line line ;;
      Ok (mkWriteState (w_text st ++ text) index (w_comments st) (w_blanks st)
            (w_ipv4 st) (S (w_ipv6 st)))
  end.

(** [for written_count, line in enumerate(self.entries)] *)
Fixpoint write_loop (index : nat) (st : WriteState) (l : list HostsEntry)
  : result WriteState :=
  match l with
  | [] => Ok st
  | line :: rest => st' <- write_entry index st line ;; write_loop (S index) st' rest
  end.

(** [Hosts.write].  The mode is ['a+'] for a path that does not exist and
    ['w'] for a writeable one, so the file holds exactly what the loop
    writes; with neither, the mode is [None] and [open] raises. *)
Definition write (self : Hosts) (fs : FileSystem) : result (FileSystem * WriteResult) :=
  let path := hosts_path self in
  let filemode :=
    if path_exists fs path && writeable fs path then Some "w"
    else if negb (path_exists fs path) then Some "a+"
    else None in
  match filemode with
  | None => Raise TypeError
  | Some _ =>
      st <- write_loop 0 (mkWriteState EmptyString 0 0 0 0 0) (entries self) ;;
      Ok (put_file fs path (w_text st),
          mkWriteResult (w_written_count st + 1) (w_comments st) (w_blanks st)
            (w_ipv4 st) (w_ipv6 st))
  end.

(** The dictionary [import_file] returns. *)
Inductive ImportReport : Type :=
| ImportSuccess (skipped invalid_count : nat) (add_result : AddResult)
    (write_result : WriteResult)
| ImportFailed (message : string).

Section Utils.

(** The validators [is_ipv4], [is_ipv6] and [valid_hostnames] of [utils.py]. *)
Variable is_ipv4 : string -> bool.
Variable is_ipv6 : string -> bool.
Variable valid_hostnames : list string -> bool.

(** [HostsEntry.__init__]; [id] is the identity of the new object. *)
Definition HostsEntry_init (id : nat) (etype : option EntryType)
    (addr cmt : option string) (nms : option (list string)) : result HostsEntry :=
  match etype with
  | None => Raise (Exception "entry_type invalid or not specified")
  | Some t =>
      if EntryType_eqb t comment && negb (truthy_str cmt)
      then Raise (Exception "entry_type comment supplied without value.")
      else
        _ <- (if EntryType_eqb t ipv4 then
                if negb (truthy_str addr && truthy_list nms)
                then Raise (Exception "Address and Name(s) must be specified.")
                else if negb (match addr with Some a => is_ipv4 a | None => false end)
                then Raise InvalidIPv4Address
                else Ok tt
              else Ok tt) ;;
        _ <- (if EntryType_eqb t ipv6 then
                if negb (truthy_str addr && truthy_list nms)
                then Raise (Exception "Address and Name(s) must be specified.")
                else if negb (match addr with Some a => is_ipv6 a | None => false end)
                then Raise InvalidIPv6Address
                else Ok tt
              else Ok tt) ;;
        Ok (mkHostsEntry id t addr cmt nms)
  end.

(** [HostsEntry.str_to_hostentry]; [id] is the identity of the entry it
    builds. *)
Definition str_to_hostentry (id : nat) (entry : string) : result parsed :=
  match split (strip entry) with
  | [] => Raise IndexError
  | part0 :: rest =>
      if is_ipv4 part0 then
        if valid_hostnames rest then
          e <- HostsEntry_init id (Some ipv4) (Some part0) None (Some rest) ;;
          Ok (Parsed e)
        else Ok ReturnedNone
      else if is_ipv6 part0 then
        if valid_hostnames rest then
          e <- HostsEntry_init id (Some ipv6) (Some part0) None (Some rest) ;;
          Ok (Parsed e)
        else Ok ReturnedNone
      else Ok ReturnedFalse
  end.

(** The loop of [import_file] over the lines of the file; [id] is the
    identity of the next entry built. *)
Fixpoint import_lines (lines : list string) (id skipped invalid_count : nat)
    (import_entries : list HostsEntry) : result (nat * nat * list HostsEntry) :=
  match lines with
  | [] => Ok (skipped, invalid_count, import_entries)
  | line :: rest =>
      let stripped_entry := strip line in
      if str_empty stripped_entry || startswith "#" stripped_entry
      then import_lines rest id (S skipped) invalid_count import_entries
      else
        import_entry <- str_to_hostentry id (rstrip (partition_head "#"%char line)) ;;
        match parsed_truthy import_entry with
        | Some e => import_lines rest (S id) skipped invalid_count (import_entries ++ [e])
        | None => import_lines rest id skipped (S invalid_count) import_entries
        end
  end.

(** [Hosts.import_file]: the object and the file system after the call, and
    the dictionary returned. *)
Definition import_file (self : Hosts) (fs : FileSystem) (id : nat)
    (import_file_path : string) : result (Hosts * FileSystem * ImportReport) :=
  if readable fs import_file_path then
    match file fs import_file_path with
    | None => Raise IOError
    | Some text =>
        '(skipped, invalid_count, import_entries) <-
           import_lines (file_lines text) id 0 0 [] ;;
        '(self', add_result) <- add self import_entries false ;;
        '(fs', write_result) <- write self' fs ;;
        Ok (self', fs', ImportSuccess skipped invalid_count add_result write_result)
    end
  else
    Ok (self, fs, ImportFailed ("Cannot read: file " ++ import_file_path ++ ".")%string).

End Utils.

(** ** The validators of [utils.py] *)

Fixpoint string_forall (p : ascii -> bool) (s : string) : bool :=
  match s with
  | EmptyString => true
  | String c s' => p c && string_forall p s'
  end.

(** [s.split(sep)] for a one-character separator: the pieces between the
    separators, empty ones included. *)
Fixpoint split_on (sep : ascii) (s : string) : list string :=
  match s with
  | EmptyString => [EmptyString]
  | String c s' =>
      if Ascii.eqb c sep then EmptyString :: split_on sep s'
      else match split_on sep s' with
           | piece :: pieces => String c piece :: pieces
           | [] => [String c EmptyString]
           end
  end.

Definition is_digit (c : ascii) : bool :=
  let n := nat_of_ascii c in ((48 <=? n) && (n <=? 57))%nat.

Definition is_hex (c : ascii) : bool :=
  let n := nat_of_ascii c in
  (is_digit c || ((65 <=? n) && (n <=? 70)) || ((97 <=? n) && (n <=? 102)))%nat.

Definition is_label_char (c : ascii) : bool :=
  let n := nat_of_ascii c in
  (is_digit c || ((65 <=? n) && (n <=? 90)) || ((97 <=? n) && (n <=? 122))
   || (n =? 45))%nat.

Fixpoint decimal_go (acc : nat) (s : string) : nat :=
  match s with
  | EmptyString => acc
  | String c s' => decimal_go (10 * acc + (nat_of_ascii c - 48)) s'
  end.

Definition is_octet (p : string) : bool :=
  if negb (str_empty p) && string_forall is_digit p && (String.length p <=? 3)%nat
  then (decimal_go 0 p <=? 255)%nat
  else false.

(** Modelled from the spec: [is_ipv4] of [utils.py], which is not among the
    sources.  "4 dot-separated octets 0-255". *)
Definition is_ipv4 (s : string) : bool :=
  let parts := split_on "."%char s in
  (List.length parts =? 4)%nat && forallb is_octet parts.

Definition is_hex_group (g : string) : bool :=
  negb (str_empty g) && (String.length g <=? 4)%nat && string_forall is_hex g.

(** The number of 16-bit groups a colon-separated list stands for; the last
    piece may be a dotted quad when [v4_last] is set. *)
Fixpoint group_count (v4_last : bool) (gs : list string) : option nat :=
  match gs with
  | [] => Some 0
  | g :: rest =>
      match rest with
      | [] => if is_hex_group g then Some 1
              else if v4_last && is_ipv4 g then Some 2 else None
      | _ :: _ => if is_hex_group g then option_map S (group_count v4_last rest)
                  else None
      end
  end.

(** The text before and after the first [::]. *)
Fixpoint cut_double_colon (s : string) : option (string * string) :=
  match s with
  | EmptyString => None
  | String c s' =>
      match s' with
      | String d r =>
          if Ascii.eqb c ":"%char && Ascii.eqb d ":"%char then Some (EmptyString, r)
          else match cut_double_colon s' with
               | Some (l, r') => Some (String c l, r')
               | None => None
               end
      | EmptyString => None
      end
  end.

Definition colon_groups (s : string) : list string :=
  if str_empty s then [] else split_on ":"%char s.

(** Modelled from the spec: [is_ipv6] of [utils.py], which is not among the
    sources.  "the full colon-hex-group syntax including :: compression and
    embedded-V4 suffix": eight groups of one to four hexadecimal digits, the
    last two of which may be written as a dotted quad, and at most one [::]
    standing for one or more groups. *)
Definition is_ipv6 (s : string) : bool :=
  match cut_double_colon s with
  | Some (l, r) =>
      match group_count false (colon_groups l), group_count true (colon_groups r) with
      | Some n, Some m => (n + m <=? 7)%nat
      | _, _ => false
      end
  | None =>
      match group_count true (split_on ":"%char s) with
      | Some n => (n =? 8)%nat
      | None => false
      end
  end.

Definition valid_hostname (name : string) : bool :=
  (String.length name <=? 255)%nat
  && forallb (fun label => negb (str_empty label) && string_forall is_label_char label)
       (split_on "."%char name).

(** Modelled from the spec: [valid_hostnames] of [utils.py], which is not
    among the sources.  "each label matches [A-Za-z0-9-] at minimum one
    character, total host name <= 255 characters, no empty labels". *)
Definition valid_hostnames (l : list string) : bool := forallb valid_hostname l.

(** A string [split] returns whole: not empty, no whitespace in it. *)
Definition is_token (s : string) : bool :=
  negb (str_empty s) && string_forall (fun c => negb (is_space c)) s.

(** An entry as [HostsEntry.__init__] leaves one of type ipv4 or ipv6: the
    address and the name list are truthy. *)
Definition is_address_entry (e : HostsEntry) : bool :=
  (EntryType_eqb (entry_type e) ipv4 || EntryType_eqb (entry_type e) ipv6)
  && truthy_str (address e) && truthy_list (names e).

(** [name] is one of the names of [x]; false for an entry without a name
    list. *)
Definition has_name (name : string) (x : HostsEntry) : bool :=
  match names x with
  | Some l => str_in name l
  | None => false
  end.

Definition is_ip_entry (e : HostsEntry) : bool :=
  EntryType_eqb (entry_type e) ipv4 || EntryType_eqb (entry_type e) ipv6.

Definition count_type (t : EntryType) (l : list HostsEntry) : nat :=
  List.length (filter (fun e => EntryType_eqb (entry_type e) t) l).

(** ** Two readings of the snapshot of [add] *)

(** The candidates on which the body of the loop of [add] ends the loop: a
    block address, several names, one of them among the existing names. *)
Definition stops_batch (existing_names : list string) (c : HostsEntry) : bool :=
  match address c, names c with
  | Some a, Some ns =>
      str_in a block_addresses && (1 <? List.length ns)%nat
      && existsb (fun n => str_in n existing_names) ns
  | _, _ => false
  end.

(** [st'] is [st] with [imps] more at the end of [import_entries], [d] more
    duplicates and [r] more replacements. *)
Definition extends_by (st st' : AddState) (imps : list HostsEntry) (d r : nat) : Prop :=
  st_import st' = st_import st ++ imps
  /\ st_duplicate st' = st_duplicate st + d
  /\ st_replaced st' = st_replaced st + r.

(** The first loop of [add] as the specification words it: each candidate
    is judged against the names and addresses of the entries still in the
    collection at its turn, that is, those of before the call minus the
    entries removed so far during the call (accepted candidates are not in
    the collection yet). *)
Fixpoint add_loop_live (force : bool) (st : AddState) (candidates : list HostsEntry)
  : result AddState :=
  match candidates with
  | [] => Ok st
  | entry :: rest =>
      '(c, st') <- add_entry (existing_addresses_of (entries (st_self st)))
                     (existing_names_of (entries (st_self st))) force st entry ;;
      match c with
      | Break => Ok st'
      | Next => add_loop_live force st' rest
      end
  end.

Definition add_dispose_live (self : Hosts) (candidates : list HostsEntry) (force : bool)
  : result AddState :=
  add_loop_live force (mkAddState self [] 0 0) candidates.

(** The state the first loop of [add] ends in, for a run that does not
    raise. *)
Definition disposed (self : Hosts) (candidates : list HostsEntry) (force : bool)
  : AddState :=
  match add_dispose self candidates force with
  | Ok st => st
  | Raise _ => mkAddState self [] 0 0
  end.

(** The characters of an address and of a host name. *)
Definition addr_char (c : ascii) : bool :=
  is_hex c || Ascii.eqb c "."%char || Ascii.eqb c ":"%char.

Definition dotted_char (c : ascii) : bool := is_digit c || Ascii.eqb c "."%char.

Definition name_char (c : ascii) : bool := is_label_char c || Ascii.eqb c "."%char.

(** ** Sample entries and collections *)

Definition comment_line : HostsEntry :=
  mkHostsEntry 1 comment None (Some ("# managed hosts" ++ NL)%string) None.

Definition localhost_entry : HostsEntry :=
  mkHostsEntry 2 ipv4 (Some "127.0.0.1") None (Some ["localhost"]).

Definition db_entry : HostsEntry :=
  mkHostsEntry 3 ipv4 (Some "10.0.0.5") None (Some ["db1"; "db2"]).

(** A file read by [populate_entries]: a comment and two address lines. *)
Definition sample_hosts : Hosts :=
  mkHosts [comment_line; localhost_entry; db_entry] "/etc/hosts".

(** The same file without its comment. *)
Definition plain_hosts : Hosts :=
  mkHosts [localhost_entry; db_entry] "/etc/hosts".

Definition db_candidate : HostsEntry :=
  mkHostsEntry 10 ipv4 (Some "10.0.0.5") None (Some ["primary"]).

Definition db_candidate2 : HostsEntry :=
  mkHostsEntry 11 ipv4 (Some "10.0.0.5") None (Some ["standby"]).

Definition web_candidate : HostsEntry :=
  mkHostsEntry 12 ipv4 (Some "10.0.0.9") None (Some ["web9"]).

Definition mixed_candidate : HostsEntry :=
  mkHostsEntry 13 ipv4 (Some "10.0.0.6") None (Some ["db1"; "cache1"]).

Definition block_pair_candidate : HostsEntry :=
  mkHostsEntry 14 ipv4 (Some "127.0.0.1") None (Some ["localhost"; "loopback"]).

Definition ads_candidate : HostsEntry :=
  mkHostsEntry 15 ipv4 (Some "127.0.0.1") None (Some ["ads.example"; "ad.example"]).

Definition tracker_candidate : HostsEntry :=
  mkHostsEntry 16 ipv4 (Some "127.0.0.1") None (Some ["tracker.example"]).

(** A file system where [/etc/hosts] exists and nothing is readable. *)
Definition locked_fs : FileSystem :=
  mkFileSystem (fun p => if String.eqb p "/etc/hosts" then Some EmptyString else None)
    (fun _ => false) (fun _ => false).

(** A file system with a readable file to import and a writeable
    [/etc/hosts]. *)
Definition import_fs : FileSystem :=
  mkFileSystem
    (fun p => if String.eqb p "/etc/hosts" then Some EmptyString
              else if String.eqb p "/tmp/import"
              then Some ("# extra hosts" ++ NL ++ NL ++ "10.0.0.9 web9 # front" ++ NL
                         ++ "10.0.0.5 other" ++ NL ++ "not-an-address x" ++ NL)%string
              else None)
    (fun p => String.eqb p "/tmp/import") (fun p => String.eqb p "/etc/hosts").

(** ** Reading the hosts file *)

(** [open(path, 'r')] followed by reading the whole file: [IOError] for a
    path that does not exist or cannot be read. *)
Definition open_read (fs : FileSystem) (path : string) : result string :=
  match file fs path with
  | Some text => if readable fs path then Ok text else Raise IOError
  | None => Raise IOError
  end.

(** [Hosts.determine_hosts_path]; [sys_platform] is [sys.platform]. *)
Definition determine_hosts_path (sys_platform : string) (platform : option string)
  : string :=
  let platform := if truthy_str platform
                  then match platform with Some p => p | None => sys_platform end
                  else sys_platform in
  if startswith "win" platform then "c:\windows\system32\drivers\etc\hosts"
  else "/etc/hosts".

(** The dictionary [populate_entries] returns when the file cannot be
    read; [None] otherwise. *)
Inductive PopulateReport : Type :=
| PopulateFailed (message : string).

Section Reading.

Variables (is_ipv4 is_ipv6 : string -> bool).

(** [HostsEntry.get_entry_type]; [None] is the value the function returns
    when it falls off its end. *)
Definition get_entry_type (hosts_entry : string) : result (option EntryType) :=
  if negb (str_empty hosts_entry) then
    let entry := strip hosts_entry in
    match entry with
    | EmptyString => Ok (Some blank)
    | String c _ =>
        if Ascii.eqb c "010"%char then Ok (Some blank)
        else if Ascii.eqb c "#"%char then Ok (Some comment)
        else
          match split entry with
          | [] => Raise IndexError
          | chunk0 :: _ =>
              if is_ipv6 chunk0 then Ok (Some ipv6)
              else if is_ipv4 chunk0 then Ok (Some ipv4)
              else Ok None
          end
    end
  else Ok None.

(** The loop of [populate_entries] over the lines read; [id] is the
    identity of the next entry built. *)
Fixpoint populate_lines (lines : list string) (id : nat) (l : list HostsEntry)
  : result (list HostsEntry) :=
  match lines with
  | [] => Ok l
  | hosts_entry :: rest =>
      entry_type <- get_entry_type hosts_entry ;;
      match entry_type with
      | Some comment =>
          e <- HostsEntry_init is_ipv4 is_ipv6 id (Some comment) None
                 (Some hosts_entry) None ;;
          populate_lines rest (S id) (l ++ [e])
      | Some blank =>
          e <- HostsEntry_init is_ipv4 is_ipv6 id (Some blank) None None None ;;
          populate_lines rest (S id) (l ++ [e])
      | Some t =>
          match split hosts_entry with
          | [] => Raise IndexError
          | chunk0 :: chunks =>
              e <- HostsEntry_init is_ipv4 is_ipv6 id (Some t) (Some (strip chunk0))
                     None (Some (map strip chunks)) ;;
              populate_lines rest (S id) (l ++ [e])
          end
      | None => populate_lines rest id l
      end
  end.

(** [Hosts.populate_entries]: the object after the call and the value
    returned; only [IOError] is caught. *)
Definition populate_entries (self : Hosts) (fs : FileSystem) (id : nat)
  : result (Hosts * option PopulateReport) :=
  match open_read fs (hosts_path self) with
  | Ok text =>
      l <- populate_lines (file_lines text) id (entries self) ;;
      Ok (with_entries self l, None)
  | Raise IOError =>
      Ok (self, Some (PopulateFailed ("Cannot read: " ++ hosts_path self ++ ".")%string))
  | Raise e => Raise e
  end.

(** [Hosts.__init__] *)
Definition Hosts_init (sys_platform : string) (fs : FileSystem) (id : nat)
    (path : option string) : result Hosts :=
  let hosts_path :=
    if truthy_str path
    then match path with Some p => p | None => EmptyString end
    else determine_hosts_path sys_platform None in
  '(self, _) <- populate_entries (mkHosts [] hosts_path) fs id ;;
  Ok self.

End Reading.

(** ** Importing from a URL *)

(** [s.replace(old, new)] for an [old] of two characters [c1 c2]. *)
Fixpoint replace2 (c1 c2 : ascii) (new : string) (s : string) : string :=
  match s with
  | EmptyString => EmptyString
  | String a s' =>
      match s' with
      | String b rest =>
          if Ascii.eqb a c1 && Ascii.eqb b c2 then (new ++ replace2 c1 c2 new rest)%string
          else String a (replace2 c1 c2 new s')
      | EmptyString => String a EmptyString
      end
  end.

(** The dictionary [import_url] returns. *)
Record UrlImportReport : Type := mkUrlImportReport {
  url_skipped : nat;
  url_add_result : AddResult;
  url_write_result : WriteResult
}.

Section ImportUrl.

Variables (is_ipv4 is_ipv6 : string -> bool) (valid_hostnames : list string -> bool).

(** [Hosts.get_hosts_by_url]: what [urllib2.urlopen(url).read()] gives. *)
Variable get_hosts_by_url : string -> result string.

(** The loop of [import_url] over the lines; [id] is the identity of the
    next entry built. *)
Fixpoint import_url_lines (lines : list string) (id skipped : nat)
    (import_entries : list HostsEntry) : result (nat * list HostsEntry) :=
  match lines with
  | [] => Ok (skipped, import_entries)
  | line :: rest =>
      let stripped_entry := strip line in
      if str_empty stripped_entry || startswith "#" stripped_entry
      then import_url_lines rest id (S skipped) import_entries
      else
        import_entry <- str_to_hostentry is_ipv4 is_ipv6 valid_hostnames id
                          (rstrip (partition_head "#"%char line)) ;;
        match parsed_truthy import_entry with
        | Some e => import_url_lines rest (S id) skipped (import_entries ++ [e])
        | None => import_url_lines rest id skipped import_entries
        end
  end.

(** [Hosts.import_url] *)
Definition import_url (self : Hosts) (fs : FileSystem) (id : nat) (url : string)
  : result (Hosts * FileSystem * UrlImportReport) :=
  file_contents <- get_hosts_by_url url ;;
  let file_contents := replace2 "^"%char "M"%char NL (rstrip file_contents) in
  let file_contents := replace2 "013"%char "010"%char NL (rstrip file_contents) in
  let lines := split_on "010"%char file_contents in
  '(skipped, import_entries) <- import_url_lines lines id 0 [] ;;
  '(self', add_result) <- add self import_entries false ;;
  '(fs', write_result) <- write self' fs ;;
  Ok (self', fs', mkUrlImportReport skipped add_result write_result).

End ImportUrl.

(** ** What the properties below speak of *)


(** The text [write] emits for an entry that it can write. *)
Definition rendered (e : HostsEntry) : string :=
  match entry_type e with
  | comment => match entry_comment e with Some c => c | None => EmptyString end
  | blank => NL
  | _ =>
      (match address e with Some a => a | None => "None" end
       ++ TAB ++ join " " (match names e with Some ns => ns | None => [] end) ++ NL)%string
  end.

Fixpoint concat_strings (l : list string) : string :=
  match l with
  | [] => EmptyString
  | x :: rest => (x ++ concat_strings rest)%string
  end.

(** The entries [write] can write: a comment has its text, an address entry
    its name list. *)
Definition writable_entry (e : HostsEntry) : bool :=
  match entry_type e with
  | comment => match entry_comment e with Some _ => true | None => false end
  | blank => true
  | _ => match names e with Some _ => true | None => false end
  end.


Definition first_char_is (c : ascii) (s : string) : bool :=
  match s with
  | String d _ => Ascii.eqb d c
  | EmptyString => false
  end.

(** The entries [populate_entries] builds: a comment holds one whole line
    whose first character after the leading whitespace is [#]; a blank entry
    holds nothing; an address entry holds an address that the validator of
    its type accepts and tokens as names. *)
Definition as_read (is_ipv4 is_ipv6 : string -> bool) (e : HostsEntry) : bool :=
  match entry_type e with
  | comment =>
      match entry_comment e, address e, names e with
      | Some text, None, None =>
          match strip text with
          | String c _ => Ascii.eqb c "#"%char
          | EmptyString => false
          end
      | _, _, _ => false
      end
  | blank =>
      match entry_comment e, address e, names e with
      | None, None, None => true
      | _, _, _ => false
      end
  | t =>
      match entry_comment e, address e, names e with
      | None, Some a, Some (n :: ns) =>
          is_token a && negb (first_char_is "#"%char a)
          && forallb is_token (n :: ns)
          && (if EntryType_eqb t ipv6 then is_ipv6 a
              else is_ipv4 a && negb (is_ipv6 a))
      | _, _, _ => false
      end
  end.



(** A file system where [/etc/hosts] exists and can be read and written. *)
Definition hosts_fs : FileSystem :=
  mkFileSystem (fun p => if String.eqb p "/etc/hosts" then Some EmptyString else None)
    (fun p => String.eqb p "/etc/hosts") (fun p => String.eqb p "/etc/hosts").

(** * Properties *)

(** ** Lists and membership *)

Lemma str_in_In (x : string) (l : list string) : str_in x l = true <-> In x l.
Proof.
  unfold str_in. rewrite existsb_exists. split.
  - intros [y [Hy Heq]]. apply String.eqb_eq in Heq. now subst.
  - intros H. exists x. split; [assumption | apply String.eqb_refl].
Qed.

Lemma str_in_not_In (x : string) (l : list string) : str_in x l = false <-> ~ In x l.
Proof.
  rewrite <- str_in_In. destruct (str_in x l); split; congruence.
Qed.

Lemma str_empty_false (s : string) : str_empty s = false <-> s <> EmptyString.
Proof.
  destruct s; simpl; split; congruence.
Qed.

Lemma with_entries_same (self : Hosts) : with_entries self (entries self) = self.
Proof.
  now destruct self.
Qed.

(** ** [list.remove] in a loop is a filter *)

Lemma list_remove_middle (x : HostsEntry) (pre l : list HostsEntry) :
  (forall y, In y pre -> y <> x) ->
  list_remove x (pre ++ x :: l) = Ok (pre ++ l).
Proof.
  induction pre as [|y pre IH]; intros Hpre; simpl.
  - destruct (HostsEntry_eq_dec x x); [reflexivity | congruence].
  - destruct (HostsEntry_eq_dec y x) as [Heq | _].
    + exfalso. apply (Hpre y); [now left | assumption].
    + rewrite IH; [reflexivity |]. intros z Hz. apply Hpre. now right.
Qed.

Lemma remove_each_filter_from (p : HostsEntry -> bool) (l pre : list HostsEntry) :
  (forall y, In y pre -> p y = false) ->
  remove_each (filter p l) (pre ++ l)
  = Ok (pre ++ filter (fun x => negb (p x)) l).
Proof.
  revert pre. induction l as [|x l IH]; intros pre Hpre; simpl.
  - reflexivity.
  - destruct (p x) eqn:Hpx; simpl.
    + rewrite list_remove_middle.
      * simpl. now apply IH.
      * intros y Hy Heq. subst y. rewrite (Hpre x Hy) in Hpx. discriminate.
    + replace (pre ++ x :: l) with ((pre ++ [x]) ++ l)
        by (rewrite <- app_assoc; reflexivity).
      rewrite IH.
      * rewrite <- app_assoc. reflexivity.
      * intros y Hy. apply in_app_or in Hy. destruct Hy as [Hy | [Hy | []]].
        -- now apply Hpre.
        -- now subst y.
Qed.

Lemma remove_each_filter (p : HostsEntry -> bool) (l : list HostsEntry) :
  remove_each (filter p l) l = Ok (filter (fun x => negb (p x)) l).
Proof.
  apply (remove_each_filter_from p l []). intros y [].
Qed.

Lemma comprehension_filter (cond : HostsEntry -> result bool)
    (p : HostsEntry -> bool) (l : list HostsEntry) :
  (forall x, In x l -> cond x = Ok (p x)) ->
  comprehension cond l = Ok (filter p l).
Proof.
  induction l as [|x l IH]; intros H; simpl.
  - reflexivity.
  - rewrite (H x (or_introl eq_refl)). simpl.
    rewrite IH by (intros y Hy; apply H; now right). simpl.
    now destruct (p x).
Qed.

Lemma comprehension_raises (cond : HostsEntry -> result bool) (e : exn)
    (l : list HostsEntry) :
  (exists x, In x l /\ cond x = Raise e) ->
  (forall x, In x l -> cond x = Raise e \/ exists b, cond x = Ok b) ->
  comprehension cond l = Raise e.
Proof.
  induction l as [|x l IH]; intros [y [Hy Hc]] Hall.
  - destruct Hy.
  - simpl. destruct (Hall x (or_introl eq_refl)) as [Hx | [b Hx]]; rewrite Hx; simpl.
    + reflexivity.
    + destruct Hy as [Hy | Hy]; [subst y; congruence |].
      rewrite IH; [reflexivity | now exists y |].
      intros z Hz. apply Hall. now right.
Qed.

(** ** [remove_all_matching] *)

Lemma remove_all_matching_by_address (self : Hosts) (a : string) :
  a <> EmptyString ->
  remove_all_matching self (Some a) None
  = Ok (with_entries self (filter (fun x => negb (address_is a x)) (entries self))).
Proof.
  intros Ha. unfold remove_all_matching. simpl.
  apply str_empty_false in Ha. rewrite Ha. simpl.
  now rewrite remove_each_filter.
Qed.

Lemma remove_all_matching_by_name (self : Hosts) (name : string) :
  name <> EmptyString ->
  (forall x, In x (entries self) -> names x <> None) ->
  remove_all_matching self None (Some name)
  = Ok (with_entries self (filter (fun x => negb (has_name name x)) (entries self))).
Proof.
  intros Hn Hall. unfold remove_all_matching. simpl.
  apply str_empty_false in Hn. rewrite Hn. simpl.
  rewrite (comprehension_filter (name_in_names name) (has_name name)).
  - simpl. now rewrite remove_each_filter.
  - intros x Hx. specialize (Hall x Hx). unfold name_in_names, has_name.
    destruct (names x); [reflexivity | congruence].
Qed.

Lemma remove_all_matching_by_name_raises (self : Hosts) (name : string) :
  name <> EmptyString ->
  (exists x, In x (entries self) /\ names x = None) ->
  remove_all_matching self None (Some name) = Raise TypeError.
Proof.
  intros Hn Hex. unfold remove_all_matching. simpl.
  apply str_empty_false in Hn. rewrite Hn. simpl.
  rewrite (comprehension_raises (name_in_names name) TypeError); [reflexivity | |].
  - destruct Hex as [x [Hx Hnone]]. exists x. split; [assumption |].
    unfold name_in_names. now rewrite Hnone.
  - intros x _. unfold name_in_names. destruct (names x); eauto.
Qed.

(** ** The snapshot [add] takes before its loop *)

Lemma dedupe_from_In (seq seen : list string) (n : string) :
  In n (dedupe_from seen seq) <-> In n seq /\ ~ In n seen.
Proof.
  revert seen. induction seq as [|x rest IH]; intros seen; simpl.
  - tauto.
  - destruct (str_in x seen) eqn:Hx.
    + rewrite IH. apply str_in_In in Hx. split.
      * tauto.
      * intros [[Heq | Hin] Hseen]; [subst; contradiction | tauto].
    + apply str_in_not_In in Hx. simpl. rewrite IH. simpl. split.
      * intros [Heq | [Hin Hseen]]; [subst; tauto | tauto].
      * intros [Hor Hseen]. destruct (string_dec x n) as [Heq | Hne]; [now left |].
        right. split; [tauto |]. intros [Heq | Hin]; contradiction.
Qed.

Lemma collect_names_In (l : list HostsEntry) (n : string) :
  In n (collect_names l)
  <-> exists x ns, In x l /\ names x = Some ns /\ In n ns.
Proof.
  induction l as [|item rest IH]; simpl.
  - split; [intros [] | intros [x [ns [[] _]]]].
  - assert (Hstep : In n (collect_names (item :: rest))
                    <-> (exists ns, names item = Some ns /\ In n ns)
                        \/ In n (collect_names rest)).
    { simpl. destruct (names item) as [ns|] eqn:Hns.
      - destruct ns as [|a [|b ns']]; simpl.
        + split; [tauto |].
          intros [[ns [Heq Hin]] | H]; [injection Heq as <-; destruct Hin | assumption].
        + split.
          * intros [Heq | H]; [left; exists [a]; simpl; tauto | tauto].
          * intros [[ns [Heq Hin]] | H]; [| tauto].
            injection Heq as <-. simpl in Hin. tauto.
        + rewrite in_app_iff. simpl. split.
          * intros [Heq | [Heq | [Hin | H]]]; try tauto;
              left; exists (a :: b :: ns'); simpl; tauto.
          * intros [[ns [Heq Hin]] | H]; [| tauto].
            injection Heq as <-. simpl in Hin. tauto.
      - split; [tauto | intros [[ns [Heq _]] | H]; [discriminate | assumption]]. }
    simpl in Hstep. rewrite Hstep, IH. split.
    + intros [[ns [Hns Hin]] | [x [ns [Hx H]]]].
      * exists item, ns. tauto.
      * exists x, ns. tauto.
    + intros [x [ns [[Heq | Hx] [Hns Hin]]]].
      * subst x. left. now exists ns.
      * right. now exists x, ns.
Qed.

Lemma existing_names_In (l : list HostsEntry) (n : string) :
  In n (existing_names_of l)
  <-> exists x ns, In x l /\ names x = Some ns /\ In n ns.
Proof.
  unfold existing_names_of, dedupe_list.
  rewrite dedupe_from_In, collect_names_In. simpl. tauto.
Qed.

Lemma existing_addresses_In (l : list HostsEntry) (a : string) :
  In a (existing_addresses_of l)
  <-> a <> EmptyString /\ exists x, In x l /\ address x = Some a.
Proof.
  induction l as [|x rest IH]; simpl.
  - split; [intros [] | intros [_ [x [[] _]]]].
  - destruct (address x) as [b|] eqn:Hb; simpl.
    + destruct (str_empty b) eqn:Hempty; simpl.
      * rewrite IH. split.
        -- intros [Ha [y [Hy Hay]]]. split; [assumption |]. exists y. tauto.
        -- intros [Ha [y [[Heq | Hy] Hay]]].
           ++ subst y. rewrite Hb in Hay. injection Hay as ->.
              apply str_empty_false in Ha. congruence.
           ++ split; [assumption |]. now exists y.
      * rewrite IH. apply str_empty_false in Hempty. split.
        -- intros [Heq | [Ha [y [Hy Hay]]]].
           ++ subst b. split; [assumption |]. exists x. tauto.
           ++ split; [assumption |]. exists y. tauto.
        -- intros [Ha [y [[Heq | Hy] Hay]]].
           ++ subst y. rewrite Hb in Hay. injection Hay as ->. now left.
           ++ right. split; [assumption |]. now exists y.
    + rewrite IH. split.
      * intros [Ha [y [Hy Hay]]]. split; [assumption |]. exists y. tauto.
      * intros [Ha [y [[Heq | Hy] Hay]]]; [subst y; congruence |].
        split; [assumption |]. now exists y.
Qed.

(** ** The second loop of [add] *)

Lemma add_commit_spec (imp l : list HostsEntry) (c4 c6 : nat) :
  add_commit imp l c4 c6
  = (l ++ filter is_ip_entry imp, c4 + count_type ipv4 imp, c6 + count_type ipv6 imp).
Proof.
  revert l c4 c6. induction imp as [|item rest IH]; intros l c4 c6; simpl.
  - unfold count_type. simpl. now rewrite app_nil_r, !Nat.add_0_r.
  - unfold is_ip_entry, count_type in *. simpl.
    destruct (entry_type item); simpl; rewrite IH; simpl;
      rewrite <- ?app_assoc; simpl; repeat f_equal; lia.
Qed.

Lemma is_address_entry_ip (e : HostsEntry) :
  is_address_entry e = true -> is_ip_entry e = true.
Proof.
  unfold is_address_entry, is_ip_entry. intros H.
  apply andb_prop in H. destruct H as [H _].
  apply andb_prop in H. tauto.
Qed.

Lemma is_address_entry_names (e : HostsEntry) :
  is_address_entry e = true -> exists n ns, names e = Some (n :: ns).
Proof.
  unfold is_address_entry. intros H. apply andb_prop in H. destruct H as [_ H].
  destruct (names e) as [[|n ns]|]; simpl in H; try discriminate. now exists n, ns.
Qed.

Lemma is_address_entry_address (e : HostsEntry) :
  is_address_entry e = true -> exists a, address e = Some a /\ a <> EmptyString.
Proof.
  unfold is_address_entry. intros H. apply andb_prop in H. destruct H as [H _].
  apply andb_prop in H. destruct H as [_ H].
  destruct (address e) as [a|]; simpl in H; [| discriminate].
  exists a. split; [reflexivity |]. apply str_empty_false.
  now destruct (str_empty a).
Qed.

(** ** [add]: a candidate whose address is already bound *)

Lemma add_entry_known_address (ea en : list string) (force : bool) (st : AddState)
    (c : HostsEntry) (a : string) :
  address c = Some a ->
  str_in a block_addresses = false ->
  str_in a ea = true ->
  a <> EmptyString ->
  add_entry ea en force st c
  = if force
    then Ok (Next,
             import_append c
               (count_replaced
                  (set_self
                     (with_entries (st_self st)
                        (filter (fun x => negb (address_is a x)) (entries (st_self st))))
                     st)))
    else Ok (Next, count_duplicate st).
Proof.
  intros Ha Hblock Hea Hne. unfold add_entry. rewrite Ha, Hblock, Hea.
  destruct force; simpl; [| reflexivity].
  now rewrite remove_all_matching_by_address.
Qed.

(** C1.  A candidate address entry whose address is not a block address and
    is the address of some entry of the collection: without [force], [add]
    counts one duplicate and leaves the collection as it was; with [force],
    it removes every entry with that address, appends the candidate and
    counts one replacement. *)
Theorem add_existing_address (self : Hosts) (c : HostsEntry) (a : string) :
  is_address_entry c = true ->
  address c = Some a ->
  str_in a block_addresses = false ->
  (exists x, In x (entries self) /\ address x = Some a) ->
  (exists r, add self [c] false = Ok (self, r)
             /\ duplicate_count r = 1 /\ replaced_count r = 0)
  /\ (exists r,
        add self [c] true
        = Ok (with_entries self
                (filter (fun x => negb (address_is a x)) (entries self) ++ [c]), r)
        /\ replaced_count r = 1 /\ duplicate_count r = 0).
Proof.
  intros Hc Ha Hblock Hex.
  destruct (is_address_entry_address c Hc) as [a' [Ha' Hne]].
  rewrite Ha in Ha'. injection Ha' as <-.
  assert (Hea : str_in a (existing_addresses_of (entries self)) = true).
  { apply str_in_In, existing_addresses_In. tauto. }
  apply is_address_entry_ip in Hc. unfold is_ip_entry in Hc.
  split.
  - eexists. unfold add, add_dispose. simpl.
    rewrite (add_entry_known_address _ _ false _ c a Ha Hblock Hea Hne). simpl.
    rewrite with_entries_same. repeat split.
  - unfold add, add_dispose. simpl.
    rewrite (add_entry_known_address _ _ true _ c a Ha Hblock Hea Hne). simpl.
    destruct (entry_type c); simpl in Hc; try discriminate; simpl;
      eexists; repeat split.
Qed.

Lemma add_existing_address_witness :
  (exists r, add plain_hosts [db_candidate] false = Ok (plain_hosts, r)
             /\ duplicate_count r = 1 /\ replaced_count r = 0)
  /\ (exists r,
        add plain_hosts [db_candidate] true
        = Ok (with_entries plain_hosts
                (filter (fun x => negb (address_is "10.0.0.5" x)) (entries plain_hosts)
                 ++ [db_candidate]), r)
        /\ replaced_count r = 1 /\ duplicate_count r = 0).
Proof.
  apply (add_existing_address plain_hosts db_candidate "10.0.0.5").
  - reflexivity.
  - reflexivity.
  - reflexivity.
  - exists db_entry. split; [simpl; tauto | reflexivity].
Defined.

(** ** [add]: block-address candidates with new names *)

Lemma scan_block_names_fresh (en : list string) (force : bool) (entry : HostsEntry)
    (ns : list string) (st : AddState) :
  (forall n, In n ns -> str_in n en = false) ->
  scan_block_names en force entry ns st = Ok (false, st).
Proof.
  induction ns as [|n ns IH]; intros H; simpl.
  - reflexivity.
  - rewrite (H n (or_introl eq_refl)). apply IH. intros m Hm. apply H. now right.
Qed.

Lemma add_entry_block_fresh (ea en : list string) (force : bool) (st : AddState)
    (c : HostsEntry) (a : string) (n : string) (ns : list string) :
  address c = Some a ->
  str_in a block_addresses = true ->
  names c = Some (n :: ns) ->
  (forall m, In m (n :: ns) -> str_in m en = false) ->
  add_entry ea en force st c = Ok (Next, import_append c st).
Proof.
  intros Ha Hblock Hns Hfresh. unfold add_entry. rewrite Ha, Hblock, Hns.
  destruct (1 <? List.length (n :: ns))%nat.
  - now rewrite scan_block_names_fresh.
  - now rewrite (Hfresh n (or_introl eq_refl)).
Qed.

(** C5.  Two candidates at 127.0.0.1, none of whose names is a name of the
    collection, added in one call: both are appended, in order, and no
    duplicate is counted.  (This holds whether or not the two name lists
    are disjoint from each other.) *)
Theorem add_two_block_candidates (self : Hosts) (c1 c2 : HostsEntry) (force : bool) :
  is_address_entry c1 = true ->
  is_address_entry c2 = true ->
  address c1 = Some "127.0.0.1" ->
  address c2 = Some "127.0.0.1" ->
  (forall x, In x (entries self) ->
     forall n, has_name n x = true -> has_name n c1 = false /\ has_name n c2 = false) ->
  exists r,
    add self [c1; c2] force = Ok (with_entries self (entries self ++ [c1; c2]), r)
    /\ duplicate_count r = 0.
Proof.
  intros Hc1 Hc2 Ha1 Ha2 Hnew.
  destruct (is_address_entry_names c1 Hc1) as [n1 [ns1 Hn1]].
  destruct (is_address_entry_names c2 Hc2) as [n2 [ns2 Hn2]].
  assert (Hfresh : forall c ns, (c = c1 \/ c = c2) -> names c = Some ns ->
            forall m, In m ns -> str_in m (existing_names_of (entries self)) = false).
  { intros c ns Hc Hns m Hm. apply str_in_not_In. rewrite existing_names_In.
    intros [x [xs [Hx [Hxs Hin]]]].
    assert (Hhas : has_name m x = true).
    { unfold has_name. rewrite Hxs. now apply str_in_In. }
    destruct (Hnew x Hx m Hhas) as [H1 H2].
    assert (Hc' : has_name m c = true).
    { unfold has_name. rewrite Hns. now apply str_in_In. }
    destruct Hc; subst c; congruence. }
  apply is_address_entry_ip in Hc1, Hc2. unfold is_ip_entry in Hc1, Hc2.
  unfold add, add_dispose. simpl.
  rewrite (add_entry_block_fresh _ _ force _ c1 "127.0.0.1" n1 ns1 Ha1 eq_refl Hn1
             (Hfresh c1 _ (or_introl eq_refl) Hn1)).
  simpl.
  rewrite (add_entry_block_fresh _ _ force _ c2 "127.0.0.1" n2 ns2 Ha2 eq_refl Hn2
             (Hfresh c2 _ (or_intror eq_refl) Hn2)).
  simpl.
  destruct (entry_type c1); simpl in Hc1; try discriminate;
    destruct (entry_type c2); simpl in Hc2; try discriminate;
    simpl; rewrite <- app_assoc; eexists; split; reflexivity.
Qed.

Lemma add_two_block_candidates_witness :
  exists r,
    add sample_hosts [ads_candidate; tracker_candidate] false
    = Ok (with_entries sample_hosts
            (entries sample_hosts ++ [ads_candidate; tracker_candidate]), r)
    /\ duplicate_count r = 0.
Proof.
  apply (add_two_block_candidates sample_hosts ads_candidate tracker_candidate false);
    try reflexivity.
  - intros x Hx n Hn. simpl in Hx.
    destruct Hx as [<- | [<- | [<- | []]]];
      unfold has_name, comment_line, localhost_entry, db_entry, str_in in Hn;
      simpl in Hn; try discriminate.
    + destruct (String.eqb_spec n "localhost") as [E | E];
        [subst n; split; reflexivity | simpl in Hn; discriminate].
    + destruct (String.eqb_spec n "db1") as [E | E]; [subst n; split; reflexivity |].
      destruct (String.eqb_spec n "db2") as [E' | E'];
        [subst n; split; reflexivity | simpl in Hn; discriminate].
Defined.

(** ** [add]: the block-address branch leaves the loop over the candidates *)

(** Once a block-address candidate with several names has a name that is
    already known, the remaining candidates are never looked at. *)
Lemma add_loop_stops_on_block_hit (ea en : list string) (force : bool)
    (st : AddState) (c : HostsEntry) (rest : list HostsEntry) (a : string)
    (ns : list string) :
  address c = Some a ->
  str_in a block_addresses = true ->
  names c = Some ns ->
  (1 <? List.length ns)%nat = true ->
  (exists n, In n ns /\ str_in n en = true) ->
  add_loop ea en force st (c :: rest) = add_loop ea en force st [c].
Proof.
  intros Ha Hblock Hns Hlen Hhit. simpl. unfold add_entry.
  rewrite Ha, Hblock, Hns, Hlen.
  assert (Hscan : (exists st', scan_block_names en force c ns st = Ok (true, st'))
                  \/ (exists e, scan_block_names en force c ns st = Raise e)).
  { clear Hns Hlen. induction ns as [|n ns IH]; simpl.
    - destruct Hhit as [n [[] _]].
    - destruct (str_in n en) eqn:Hn.
      + destruct force; [| eauto].
        destruct (remove_all_matching (st_self st) None (Some n)); simpl; eauto.
      + apply IH. destruct Hhit as [m [[Heq | Hm] Hmen]]; [congruence | eauto]. }
  destruct Hscan as [[st' ->] | [e ->]]; reflexivity.
Qed.

(** C2.  A batch of two candidates on a collection that binds [localhost]:
    the first, at 127.0.0.1 with the names [localhost] and [loopback], is a
    duplicate; the second, a new address with a new name, is then neither
    accepted nor counted, although alone it is accepted.  With [force] the
    first replaces the old entry and the second is dropped all the same. *)
Theorem add_block_duplicate_skips_rest :
  add plain_hosts [block_pair_candidate; web_candidate] false
  = Ok (plain_hosts, mkAddResult 0 0 0 1 0)
  /\ add plain_hosts [web_candidate] false
     = Ok (with_entries plain_hosts [localhost_entry; db_entry; web_candidate],
           mkAddResult 1 0 0 0 0)
  /\ add plain_hosts [block_pair_candidate; web_candidate] true
     = Ok (with_entries plain_hosts [db_entry; block_pair_candidate],
           mkAddResult 1 0 0 0 0).
Proof.
  repeat split; vm_compute; reflexivity.
Qed.

(** ** [add]: a new address whose names overlap known names *)

(** C4.  A candidate at a new address with the names [db1] (a name of the
    collection) and [cache1] (a new one), without [force]: it is counted as
    a duplicate and appended as well. *)
Theorem add_overlap_counted_and_appended :
  add plain_hosts [mixed_candidate] false
  = Ok (with_entries plain_hosts [localhost_entry; db_entry; mixed_candidate],
        mkAddResult 1 0 0 1 0).
Proof.
  vm_compute. reflexivity.
Qed.

(** What the branch does hold for: a candidate with one name. *)
Lemma add_entry_new_address_one_name (ea en : list string) (st : AddState)
    (c : HostsEntry) (name : string) :
  match address c with
  | Some a => str_in a block_addresses = false /\ str_in a ea = false
  | None => True
  end ->
  names c = Some [name] ->
  add_entry ea en false st c
  = Ok (Next, if overlaps en name then count_duplicate st else import_append c st).
Proof.
  intros Ha Hns. unfold add_entry. rewrite Hns.
  destruct (address c) as [a|]; [destruct Ha as [-> ->] |]; simpl;
    destruct (overlaps en name); reflexivity.
Qed.

(** With no overlap at all the candidate is appended once, whatever the
    number of its names. *)
Lemma scan_overlap_none (en : list string) (force : bool) (c : HostsEntry)
    (n : string) (ns : list string) (st : AddState) :
  overlaps en n = false ->
  scan_overlap en force c (n :: ns) st = Ok (import_append c st).
Proof.
  intros H. simpl. now rewrite H.
Qed.

(** ** [exists] *)

(** C7.  On a collection read from a file with a comment line, asking for a
    name that an entry does carry raises [TypeError]; without the comment
    line the same question is answered [True]. *)
Theorem exists_raises_on_comment_entry :
  Hosts_exists sample_hosts None (Some ["db1"]) = Raise TypeError
  /\ Hosts_exists plain_hosts None (Some ["db1"]) = Ok true.
Proof.
  split; reflexivity.
Qed.

Lemma exists_empty_collection (path : string) (address : option string)
    (names : option (list string)) :
  Hosts_exists (mkHosts [] path) address names = Ok false.
Proof.
  reflexivity.
Qed.

Lemma exists_no_criteria (self : Hosts) : Hosts_exists self None None = Ok false.
Proof.
  unfold Hosts_exists. induction (entries self) as [|x l IH]; simpl; auto.
Qed.

Lemma exists_names_spec (ns : list string) (entry : HostsEntry) :
  names entry <> None ->
  exists_names ns entry = Ok (existsb (fun n => has_name n entry) ns).
Proof.
  intros Hsome. induction ns as [|n ns IH]; simpl.
  - reflexivity.
  - unfold name_in_names, has_name in *.
    destruct (names entry) as [l|]; [| congruence]. simpl.
    destruct (str_in n l); simpl; [reflexivity | exact IH].
Qed.

(** On a collection whose entries all carry a name list, [exists] answers
    the question its documentation states. *)
Lemma exists_on_named_entries (self : Hosts) (addr : option string)
    (nms : option (list string)) :
  (forall x, In x (entries self) -> names x <> None) ->
  exists b,
    Hosts_exists self addr nms = Ok b
    /\ (b = true <->
        (exists a x, addr = Some a /\ a <> EmptyString
                     /\ In x (entries self) /\ address x = Some a)
        \/ (exists ns n x, nms = Some ns /\ In n ns
                           /\ In x (entries self) /\ has_name n x = true)).
Proof.
  unfold Hosts_exists. induction (entries self) as [|x l IH]; intros Hall.
  - exists false. split; [reflexivity |]. split; [discriminate |].
    intros [[a [y [_ [_ [[] _]]]]] | [ns [n [y [_ [_ [[] _]]]]]]].
  - destruct IH as [b [Hb Hiff]]; [intros y Hy; apply Hall; now right |].
    simpl.
    destruct (truthy_str addr
              && match addr with Some a => address_is a x | None => false end)
      eqn:Haddr.
    + exists true. split; [reflexivity |]. split; [| reflexivity]. intros _. left.
      apply andb_prop in Haddr. destruct Haddr as [Ht Hx].
      destruct addr as [a|]; [| discriminate]. exists a, x.
      repeat split.
      * apply str_empty_false. simpl in Ht. now destruct (str_empty a).
      * now left.
      * unfold address_is in Hx. destruct (address x) as [c|];
          [| discriminate]. apply String.eqb_eq in Hx. now subst.
    + assert (Hfound :
        match nms with
        | Some ns => if truthy_list nms then exists_names ns x else Ok false
        | None => Ok false
        end = Ok (match nms with
                  | Some ns => existsb (fun n => has_name n x) ns
                  | None => false
                  end)).
      { destruct nms as [[|n ns]|]; simpl; try reflexivity.
        pose proof (exists_names_spec (n :: ns) x (Hall x (or_introl eq_refl))) as E.
        simpl in E. exact E. }
      rewrite Hfound. simpl.
      destruct (match nms with
                | Some ns => existsb (fun n => has_name n x) ns
                | None => false
                end) eqn:Hany.
      * exists true. split; [reflexivity |]. split; [| reflexivity]. intros _. right.
        destruct nms as [ns|]; [| discriminate].
        apply existsb_exists in Hany. destruct Hany as [n [Hn Hhas]].
        exists ns, n, x. repeat split; auto; now left.
      * exists b. split; [exact Hb |]. rewrite Hiff. split.
        -- intros [[a [y H]] | [ns [n [y H]]]].
           ++ left. exists a, y. simpl. tauto.
           ++ right. exists ns, n, y. simpl. tauto.
        -- intros [[a [y [Ha [Hne [[Heq | Hy] Hay]]]]]
                  | [ns [n [y [Hns [Hn [[Heq | Hy] Hhas]]]]]]].
           ++ subst y addr. simpl in Haddr.
              apply str_empty_false in Hne. rewrite Hne in Haddr. simpl in Haddr.
              unfold address_is in Haddr. rewrite Hay, String.eqb_refl in Haddr.
              discriminate.
           ++ left. now exists a, y.
           ++ subst y nms.
              assert (existsb (fun n0 => has_name n0 x) ns = true)
                by (apply existsb_exists; now exists n).
              congruence.
           ++ right. now exists ns, n, y.
Qed.

(** ** [remove_all_matching] by name *)

(** C8.  On a collection read from a file with a comment line, removing by
    name raises [TypeError] and removes nothing, although an entry carries
    the name. *)
Theorem remove_by_name_raises_on_comment_entry :
  remove_all_matching sample_hosts None (Some "localhost") = Raise TypeError
  /\ remove_all_matching plain_hosts None (Some "localhost")
     = Ok (with_entries plain_hosts [db_entry]).
Proof.
  split; reflexivity.
Qed.

(** ** Whitespace and [split] *)

Lemma rstrip_spaces (s : string) :
  string_forall is_space s = true -> rstrip s = EmptyString.
Proof.
  induction s as [|c s IH]; simpl; intros H.
  - reflexivity.
  - apply andb_prop in H. destruct H as [Hc Hs].
    now rewrite (IH Hs), Hc.
Qed.

Lemma split_strip_spaces (s : string) :
  string_forall is_space s = true -> split (strip s) = [].
Proof.
  intros H. unfold strip. now rewrite (rstrip_spaces s H).
Qed.

Section Parsing.

Variables (v4 v6 : string -> bool) (vh : list string -> bool).

(** C10.  On a string made of whitespace only, the empty string included,
    [str_to_hostentry] raises [IndexError]: it returns neither an entry nor
    [None] nor [False]. *)
Theorem str_to_hostentry_blank_line (id : nat) (entry : string) :
  string_forall is_space entry = true ->
  str_to_hostentry v4 v6 vh id entry = Raise IndexError.
Proof.
  intros H. unfold str_to_hostentry. now rewrite (split_strip_spaces entry H).
Qed.

(** C9.  When [is_readable] refuses the path, [import_file] returns the
    failure dictionary; the object and the file system are those before the
    call. *)
Theorem import_file_unreadable (self : Hosts) (fs : FileSystem) (id : nat)
    (import_file_path : string) :
  readable fs import_file_path = false ->
  import_file v4 v6 vh self fs id import_file_path
  = Ok (self, fs, ImportFailed ("Cannot read: file " ++ import_file_path ++ ".")).
Proof.
  intros H. unfold import_file. now rewrite H.
Qed.

End Parsing.

Lemma str_to_hostentry_blank_line_witness :
  str_to_hostentry is_ipv4 is_ipv6 valid_hostnames 0 EmptyString = Raise IndexError
  /\ str_to_hostentry is_ipv4 is_ipv6 valid_hostnames 0 (" " ++ TAB ++ NL)
     = Raise IndexError.
Proof.
  split; apply str_to_hostentry_blank_line; reflexivity.
Defined.

Lemma import_file_unreadable_witness :
  import_file is_ipv4 is_ipv6 valid_hostnames sample_hosts locked_fs 100 "/tmp/import"
  = Ok (sample_hosts, locked_fs, ImportFailed "Cannot read: file /tmp/import.").
Proof.
  apply (import_file_unreadable is_ipv4 is_ipv6 valid_hostnames sample_hosts locked_fs
           100 "/tmp/import").
  reflexivity.
Defined.

(** ** [split] gives back the tokens of a written line *)

Lemma append_snoc (a b : string) (c : ascii) :
  ((a ++ String c EmptyString) ++ b = a ++ String c b)%string.
Proof.
  induction a as [|d a IH]; simpl; [reflexivity | now rewrite IH].
Qed.

Lemma append_assoc (a b c : string) : ((a ++ b) ++ c = a ++ (b ++ c))%string.
Proof.
  induction a as [|d a IH]; simpl; [reflexivity | now rewrite IH].
Qed.

Lemma string_forall_app (p : ascii -> bool) (a b : string) :
  string_forall p (a ++ b) = string_forall p a && string_forall p b.
Proof.
  induction a as [|c a IH]; simpl; [reflexivity | now rewrite IH, andb_assoc].
Qed.

Lemma string_forall_weaken (p q : ascii -> bool) (s : string) :
  (forall c, p c = true -> q c = true) ->
  string_forall p s = true -> string_forall q s = true.
Proof.
  intros Hpq. induction s as [|c s IH]; simpl; [reflexivity |].
  intros H. apply andb_prop in H. destruct H as [Hc Hs].
  now rewrite (Hpq c Hc), (IH Hs).
Qed.

Lemma is_token_spec (s : string) :
  is_token s = true
  <-> s <> EmptyString /\ string_forall (fun c => negb (is_space c)) s = true.
Proof.
  unfold is_token. rewrite andb_true_iff, negb_true_iff. now rewrite str_empty_false.
Qed.

Lemma split_go_token (t tok s : string) :
  string_forall (fun c => negb (is_space c)) t = true ->
  split_go tok (t ++ s) = split_go (tok ++ t) s.
Proof.
  revert tok. induction t as [|c t IH]; intros tok H; simpl.
  - replace (tok ++ EmptyString)%string with tok; [reflexivity |].
    clear. induction tok as [|d tok IH]; simpl; [reflexivity | now rewrite <- IH].
  - simpl in H. apply andb_prop in H. destruct H as [Hc Ht].
    apply negb_true_iff in Hc. rewrite Hc, (IH _ Ht), append_snoc. reflexivity.
Qed.

Lemma split_lstrip (s : string) : split (lstrip s) = split s.
Proof.
  unfold split. induction s as [|c s IH]; simpl; [reflexivity |].
  destruct (is_space c) eqn:Hc; simpl; [exact IH | now rewrite Hc].
Qed.

Lemma split_go_rstrip (s tok : string) : split_go tok (rstrip s) = split_go tok s.
Proof.
  revert tok. induction s as [|c s IH]; intros tok; simpl; [reflexivity |].
  destruct (is_space c) eqn:Hc; simpl.
  - destruct (str_empty (rstrip s)) eqn:He; simpl.
    + rewrite <- (IH EmptyString).
      destruct (rstrip s); [| discriminate]. simpl. reflexivity.
    + rewrite Hc, IH. reflexivity.
  - rewrite Hc. apply IH.
Qed.

Lemma split_strip (s : string) : split (strip s) = split s.
Proof.
  unfold strip. rewrite split_lstrip. apply split_go_rstrip.
Qed.

Lemma split_go_after_token (t s : string) (c : ascii) :
  is_token t = true -> is_space c = true ->
  split_go EmptyString (t ++ String c s) = t :: split_go EmptyString s.
Proof.
  intros Ht Hc. apply is_token_spec in Ht. destruct Ht as [Hne Hns].
  rewrite (split_go_token t EmptyString _ Hns). simpl. rewrite Hc.
  apply str_empty_false in Hne. now rewrite Hne.
Qed.

Lemma split_joined_names (l : list string) :
  forallb is_token l = true ->
  split_go EmptyString (join " " l ++ NL) = l.
Proof.
  induction l as [|x l IH]; intros H.
  - reflexivity.
  - simpl in H. apply andb_prop in H. destruct H as [Hx Hl].
    destruct l as [|y l].
    + simpl. unfold NL. now rewrite split_go_after_token.
    + change (join " " (x :: y :: l)) with (x ++ " " ++ join " " (y :: l))%string.
      rewrite append_assoc.
      change ((" " ++ join " " (y :: l)) ++ NL)%string
        with (String " "%char (join " " (y :: l) ++ NL)).
      rewrite split_go_after_token by (assumption || reflexivity).
      now rewrite (IH Hl).
Qed.

Lemma split_written_line (a : string) (l : list string) :
  is_token a = true -> forallb is_token l = true ->
  split (strip (a ++ TAB ++ join " " l ++ NL)) = a :: l.
Proof.
  intros Ha Hl. rewrite split_strip. unfold split, TAB. simpl append.
  rewrite split_go_after_token by (assumption || reflexivity).
  now rewrite split_joined_names.
Qed.

(** ** Writing an address entry and reading the line back *)

Section RoundTrip.

Variables (v4 v6 : string -> bool) (vh : list string -> bool).

(** What the description of the validators gives: an accepted address and
    an accepted name are tokens, and no string is an address of both
    kinds. *)
Hypothesis v4_token : forall a, v4 a = true -> is_token a = true.
Hypothesis v6_token : forall a, v6 a = true -> is_token a = true.
Hypothesis v6_not_v4 : forall a, v6 a = true -> v4 a = false.
Hypothesis vh_tokens : forall l, vh l = true -> forallb is_token l = true.

Lemma HostsEntry_init_address (id : nat) (k : EntryType) (a : string)
    (l : list string) (e : HostsEntry) :
  HostsEntry_init v4 v6 id (Some k) (Some a) None (Some l) = Ok e ->
  is_ip_entry e = true ->
  e = mkHostsEntry id k (Some a) None (Some l)
  /\ l <> []
  /\ ((k = ipv4 /\ v4 a = true) \/ (k = ipv6 /\ v6 a = true)).
Proof.
  unfold HostsEntry_init, is_ip_entry. intros H Hk.
  destruct k; simpl in H.
  - destruct (str_empty a); simpl in H; [discriminate |].
    destruct l as [|n l]; simpl in H; [discriminate |].
    destruct (v4 a) eqn:Hv; simpl in H; [| discriminate].
    injection H as <-. repeat split; [discriminate | now left].
  - destruct (str_empty a); simpl in H; [discriminate |].
    destruct l as [|n l]; simpl in H; [discriminate |].
    destruct (v6 a) eqn:Hv; simpl in H; [| discriminate].
    injection H as <-. repeat split; [discriminate | now right].
  - discriminate.
  - injection H as <-. discriminate.
Qed.

(** C6.  An address entry built by [HostsEntry] from an address [a] and a
    list [l] of valid names is written by [write] as the line
    [a<TAB>names<LF>], and [str_to_hostentry] reads that line back as an
    entry of the same type with the same address and the same names. *)
Theorem address_line_round_trip (id id' : nat) (k : EntryType) (a : string)
    (l : list string) (e : HostsEntry) :
  HostsEntry_init v4 v6 id (Some k) (Some a) None (Some l) = Ok e ->
  is_ip_entry e = true ->
  vh l = true ->
  exists line e',
    format_address_line e = Ok line
    /\ line = (a ++ TAB ++ join " " l ++ NL)%string
    /\ (forall st index, exists st',
          write_entry index st e = Ok st' /\ w_text st' = (w_text st ++ line)%string)
    /\ str_to_hostentry v4 v6 vh id' line = Ok (Parsed e')
    /\ entry_type e' = entry_type e
    /\ address e' = address e
    /\ names e' = names e.
Proof.
  intros Hinit Hip Hvh.
  destruct (HostsEntry_init_address id k a l e Hinit Hip) as [-> [Hne Hkind]].
  exists (a ++ TAB ++ join " " l ++ NL)%string, (mkHostsEntry id' k (Some a) None (Some l)).
  split; [reflexivity |]. split; [reflexivity |]. split.
  { intros st index. unfold write_entry. simpl.
    destruct Hkind as [[-> _] | [-> _]]; simpl; eexists; split; reflexivity. }
  split; [| repeat split].
  assert (Ha : is_token a = true).
  { destruct Hkind as [[_ H] | [_ H]]; [now apply v4_token | now apply v6_token]. }
  unfold str_to_hostentry.
  rewrite (split_written_line a l Ha (vh_tokens l Hvh)).
  apply is_token_spec in Ha. destruct Ha as [Hane _].
  apply str_empty_false in Hane.
  destruct l as [|n l]; [congruence |].
  destruct Hkind as [[-> Hv] | [-> Hv]].
  - rewrite Hv, Hvh. unfold HostsEntry_init. simpl. now rewrite Hane, Hv.
  - rewrite (v6_not_v4 a Hv), Hv, Hvh. unfold HostsEntry_init. simpl.
    now rewrite Hane, Hv.
Qed.

End RoundTrip.

(** ** The validators as described accept tokens only *)

Lemma addr_char_not_space (c : ascii) :
  addr_char c = true -> negb (is_space c) = true.
Proof.
  destruct c as [[] [] [] [] [] [] [] []]; vm_compute; congruence.
Qed.

Lemma name_char_not_space (c : ascii) :
  name_char c = true -> negb (is_space c) = true.
Proof.
  destruct c as [[] [] [] [] [] [] [] []]; vm_compute; congruence.
Qed.

Lemma dotted_char_addr_char (c : ascii) : dotted_char c = true -> addr_char c = true.
Proof.
  destruct c as [[] [] [] [] [] [] [] []]; vm_compute; congruence.
Qed.

Lemma dotted_char_not_colon (c : ascii) :
  dotted_char c = true -> Ascii.eqb c ":"%char = false.
Proof.
  destruct c as [[] [] [] [] [] [] [] []]; vm_compute; congruence.
Qed.

Lemma split_on_not_nil (sep : ascii) (s : string) : split_on sep s <> [].
Proof.
  destruct s as [|c s]; simpl; [discriminate |].
  destruct (Ascii.eqb c sep); [discriminate |].
  destruct (split_on sep s); discriminate.
Qed.

Lemma split_on_forall (p : ascii -> bool) (sep : ascii) (s : string) :
  p sep = true ->
  forallb (string_forall p) (split_on sep s) = true ->
  string_forall p s = true.
Proof.
  intros Hsep. induction s as [|c s IH]; simpl; [reflexivity |].
  destruct (Ascii.eqb_spec c sep) as [-> | Hne]; simpl.
  - intros H. now rewrite Hsep, (IH H).
  - destruct (split_on sep s) as [|piece pieces] eqn:Hs; simpl.
    + now destruct (split_on_not_nil sep s).
    + intros H. apply andb_prop in H. destruct H as [H Hrest].
      apply andb_prop in H. destruct H as [Hc Hpiece].
      rewrite Hc. simpl. apply IH. simpl. now rewrite Hpiece, Hrest.
Qed.

Lemma split_on_without_sep (sep : ascii) (s : string) :
  string_forall (fun c => negb (Ascii.eqb c sep)) s = true ->
  split_on sep s = [s].
Proof.
  induction s as [|c s IH]; simpl; [reflexivity |].
  intros H. apply andb_prop in H. destruct H as [Hc Hs].
  apply negb_true_iff in Hc. now rewrite Hc, (IH Hs).
Qed.

Lemma forallb_weaken {A : Type} (p q : A -> bool) (l : list A) :
  (forall x, p x = true -> q x = true) ->
  forallb p l = true -> forallb q l = true.
Proof.
  intros Hpq H. rewrite forallb_forall in *. auto.
Qed.

Lemma is_octet_dotted (p : string) :
  is_octet p = true -> string_forall dotted_char p = true.
Proof.
  unfold is_octet. intros H.
  destruct (negb (str_empty p) && string_forall is_digit p
            && (String.length p <=? 3)%nat) eqn:E; [clear H | discriminate].
  apply andb_prop in E. destruct E as [H _].
  apply andb_prop in H. destruct H as [_ H].
  apply (string_forall_weaken is_digit); [| exact H].
  intros c Hc. unfold dotted_char. now rewrite Hc.
Qed.

Lemma is_ipv4_dotted (s : string) :
  is_ipv4 s = true -> string_forall dotted_char s = true.
Proof.
  unfold is_ipv4. intros H. apply andb_prop in H. destruct H as [_ H].
  apply (split_on_forall dotted_char "."%char); [reflexivity |].
  exact (forallb_weaken _ _ _ is_octet_dotted H).
Qed.

Lemma is_ipv4_token (s : string) : is_ipv4 s = true -> is_token s = true.
Proof.
  intros H. apply is_token_spec. split.
  - intros ->. discriminate.
  - apply (string_forall_weaken dotted_char); [| now apply is_ipv4_dotted].
    intros c Hc. now apply addr_char_not_space, dotted_char_addr_char.
Qed.

Lemma group_count_chars (v4_last : bool) (gs : list string) (n : nat) :
  group_count v4_last gs = Some n ->
  forallb (string_forall addr_char) gs = true.
Proof.
  revert n. induction gs as [|g rest IH]; intros n H; [reflexivity |].
  simpl in H. simpl.
  assert (Hhex : is_hex_group g = true -> string_forall addr_char g = true).
  { unfold is_hex_group. intros Hg. apply andb_prop in Hg. destruct Hg as [_ Hg].
    apply (string_forall_weaken is_hex); [| exact Hg].
    intros c Hc. unfold addr_char. now rewrite Hc. }
  destruct rest as [|g' rest'].
  - destruct (is_hex_group g) eqn:Hg.
    + now rewrite (Hhex eq_refl).
    + destruct (v4_last && is_ipv4 g) eqn:Hv; [| discriminate].
      apply andb_prop in Hv. destruct Hv as [_ Hv].
      rewrite (string_forall_weaken dotted_char addr_char g dotted_char_addr_char
                 (is_ipv4_dotted g Hv)).
      reflexivity.
  - destruct (is_hex_group g) eqn:Hg; [| discriminate].
    rewrite (Hhex eq_refl).
    destruct (group_count v4_last (g' :: rest')) as [m|] eqn:Hm; [| discriminate].
    exact (IH m eq_refl).
Qed.

Lemma colon_groups_chars (v4_last : bool) (s : string) (n : nat) :
  group_count v4_last (colon_groups s) = Some n ->
  string_forall addr_char s = true.
Proof.
  unfold colon_groups. destruct s as [|c s]; [reflexivity |]. simpl str_empty.
  cbv iota. intros H.
  apply (split_on_forall addr_char ":"%char); [reflexivity |].
  exact (group_count_chars _ _ _ H).
Qed.

Lemma cut_double_colon_spec (s l r : string) :
  cut_double_colon s = Some (l, r) -> s = (l ++ "::" ++ r)%string.
Proof.
  revert l. induction s as [|c s IH]; intros l H; simpl in H; [discriminate |].
  destruct s as [|d s']; [discriminate |].
  destruct (Ascii.eqb c ":"%char && Ascii.eqb d ":"%char) eqn:Hcd.
  - injection H as <- <-. apply andb_prop in Hcd. destruct Hcd as [Hc Hd].
    apply Ascii.eqb_eq in Hc, Hd. now subst.
  - destruct (cut_double_colon (String d s')) as [[l' r']|] eqn:Hcut; [| discriminate].
    injection H as <- <-. simpl. f_equal. now apply IH.
Qed.

Lemma is_ipv6_chars (s : string) :
  is_ipv6 s = true -> string_forall addr_char s = true.
Proof.
  unfold is_ipv6. destruct (cut_double_colon s) as [[l r]|] eqn:Hcut.
  - destruct (group_count false (colon_groups l)) as [n|] eqn:Hl; [| discriminate].
    destruct (group_count true (colon_groups r)) as [m|] eqn:Hr; [| discriminate].
    intros _. rewrite (cut_double_colon_spec s l r Hcut), !string_forall_app.
    now rewrite (colon_groups_chars _ _ _ Hl), (colon_groups_chars _ _ _ Hr).
  - destruct (group_count true (split_on ":"%char s)) as [n|] eqn:Hg; [| discriminate].
    intros _. apply (split_on_forall addr_char ":"%char); [reflexivity |].
    exact (group_count_chars _ _ _ Hg).
Qed.

Lemma is_ipv6_token (s : string) : is_ipv6 s = true -> is_token s = true.
Proof.
  intros H. apply is_token_spec. split.
  - intros ->. discriminate.
  - apply (string_forall_weaken addr_char); [exact addr_char_not_space |].
    now apply is_ipv6_chars.
Qed.

Lemma is_ipv6_not_ipv4 (s : string) : is_ipv6 s = true -> is_ipv4 s = false.
Proof.
  intros H6. destruct (is_ipv4 s) eqn:H4; [| reflexivity]. exfalso.
  apply is_ipv4_dotted in H4.
  assert (Hnc : string_forall (fun c => negb (Ascii.eqb c ":"%char)) s = true).
  { apply (string_forall_weaken dotted_char); [| exact H4].
    intros c Hc. now rewrite (dotted_char_not_colon c Hc). }
  unfold is_ipv6 in H6. destruct (cut_double_colon s) as [[l r]|] eqn:Hcut.
  - rewrite (cut_double_colon_spec s l r Hcut), !string_forall_app in Hnc.
    simpl in Hnc. rewrite andb_false_r in Hnc. discriminate.
  - rewrite (split_on_without_sep _ _ Hnc) in H6. simpl in H6.
    destruct (is_hex_group s); [discriminate |].
    destruct (is_ipv4 s); discriminate.
Qed.

Lemma valid_hostname_token (name : string) :
  valid_hostname name = true -> is_token name = true.
Proof.
  intros H. apply is_token_spec. split.
  - intros ->. discriminate.
  - unfold valid_hostname in H. apply andb_prop in H. destruct H as [_ H].
    apply (string_forall_weaken name_char); [exact name_char_not_space |].
    apply (split_on_forall name_char "."%char); [reflexivity |].
    refine (forallb_weaken _ _ _ _ H). intros label Hl.
    apply andb_prop in Hl. destruct Hl as [_ Hl].
    apply (string_forall_weaken is_label_char); [| exact Hl].
    intros c Hc. unfold name_char. now rewrite Hc.
Qed.

Lemma valid_hostnames_tokens (l : list string) :
  valid_hostnames l = true -> forallb is_token l = true.
Proof.
  apply forallb_weaken. exact valid_hostname_token.
Qed.

Lemma address_line_round_trip_witness :
  exists line e',
    format_address_line db_entry = Ok line
    /\ line = ("10.0.0.5" ++ TAB ++ join " " ["db1"; "db2"] ++ NL)%string
    /\ (forall st index, exists st',
          write_entry index st db_entry = Ok st'
          /\ w_text st' = (w_text st ++ line)%string)
    /\ str_to_hostentry is_ipv4 is_ipv6 valid_hostnames 20 line = Ok (Parsed e')
    /\ entry_type e' = entry_type db_entry
    /\ address e' = address db_entry
    /\ names e' = names db_entry.
Proof.
  apply (address_line_round_trip is_ipv4 is_ipv6 valid_hostnames
           is_ipv4_token is_ipv6_token is_ipv6_not_ipv4 valid_hostnames_tokens
           3 20 ipv4 "10.0.0.5" ["db1"; "db2"] db_entry);
    reflexivity.
Defined.

(** ** [add]: every candidate is judged against the snapshot *)

Lemma comprehension_ok (cond : HostsEntry -> result bool) (l kept : list HostsEntry) :
  comprehension cond l = Ok kept ->
  kept = filter (fun x => match cond x with Ok true => true | _ => false end) l.
Proof.
  revert kept. induction l as [|x l IH]; intros kept H; simpl in *.
  - now injection H as <-.
  - destruct (cond x) as [b|e]; simpl in H; [| discriminate].
    destruct (comprehension cond l) as [k|e]; simpl in H; [| discriminate].
    injection H as <-. rewrite (IH k eq_refl). now destruct b.
Qed.

Lemma filter_all (l : list HostsEntry) : l = filter (fun _ => true) l.
Proof.
  induction l as [|x l IH]; simpl; [reflexivity | now f_equal].
Qed.

Lemma filter_filter (p q : HostsEntry -> bool) (l : list HostsEntry) :
  filter p (filter q l) = filter (fun x => q x && p x) l.
Proof.
  induction l as [|x l IH]; simpl; [reflexivity |].
  destruct (q x); simpl; [destruct (p x) |]; now rewrite IH.
Qed.

Lemma remove_all_matching_keeps (self self' : Hosts) (a n : option string) :
  remove_all_matching self a n = Ok self' ->
  exists keep, entries self' = filter keep (entries self).
Proof.
  unfold remove_all_matching. intros H.
  assert (Hstep : forall p, 
            (l <- remove_each (filter p (entries self)) (entries self) ;;
             Ok (with_entries self l)) = Ok self' ->
            exists keep, entries self' = filter keep (entries self)).
  { intros p Hp. rewrite remove_each_filter in Hp. simpl in Hp.
    injection Hp as <-. now exists (fun x => negb (p x)). }
  assert (Hnone : (l <- remove_each [] (entries self) ;; Ok (with_entries self l))
                  = Ok self' ->
                  exists keep, entries self' = filter keep (entries self)).
  { simpl. intros Hp. injection Hp as <-. exists (fun _ => true). apply filter_all. }
  assert (Hcomp : forall cond,
            (to_remove <- comprehension cond (entries self) ;;
             l <- remove_each to_remove (entries self) ;;
             Ok (with_entries self l)) = Ok self' ->
            exists keep, entries self' = filter keep (entries self)).
  { intros cond Hc.
    destruct (comprehension cond (entries self)) as [k|e] eqn:Hk; [| discriminate].
    simpl in Hc. rewrite (comprehension_ok _ _ _ Hk) in Hc. exact (Hstep _ Hc). }
  destruct a as [a|], n as [n|]; simpl in H;
    try destruct (str_empty a); try destruct (str_empty n); simpl in H;
    first [exact (Hnone H) | exact (Hstep _ H) | exact (Hcomp _ H)].
Qed.

Section Snapshot.

Variables (ea en : list string) (force : bool).

Lemma scan_block_names_found (c : HostsEntry) (ns : list string)
    (st st' : AddState) (b : bool) :
  scan_block_names en force c ns st = Ok (b, st') ->
  b = existsb (fun n => str_in n en) ns.
Proof.
  induction ns as [|n ns IH]; simpl; intros H.
  - now injection H as <- _.
  - destruct (str_in n en); simpl; [| exact (IH H)].
    destruct force.
    + destruct (remove_all_matching (st_self st) None (Some n)); simpl in H;
        [now injection H as <- _ | discriminate].
    + now injection H as <- _.
Qed.

Lemma add_entry_ctl (st st' : AddState) (c : HostsEntry) (k : ctl) :
  add_entry ea en force st c = Ok (k, st') ->
  k = if stops_batch en c then Break else Next.
Proof.
  unfold add_entry, stops_batch. intros H.
  destruct (address c) as [a|].
  - destruct (str_in a block_addresses); simpl.
    + destruct (names c) as [ns|]; [| discriminate].
      destruct (1 <? List.length ns)%nat; simpl.
      * destruct (scan_block_names en force c ns st) as [[b st'']|e] eqn:Hscan;
          simpl in H; [| discriminate].
        rewrite <- (scan_block_names_found c ns st st'' b Hscan).
        destruct b; now injection H as <- _.
      * destruct ns as [|n0 ns']; [discriminate |].
        destruct (str_in n0 en); now injection H as <- _.
    + destruct (names c) as [ns|].
      * destruct (str_in a ea).
        -- destruct (negb force); [now injection H as <- _ |].
           destruct (remove_all_matching (st_self st) (Some a) None); simpl in H;
             [now injection H as <- _ | discriminate].
        -- destruct (scan_overlap en force c ns st); simpl in H;
             [now injection H as <- _ | discriminate].
      * destruct (str_in a ea); [| discriminate].
        destruct (negb force); [now injection H as <- _ |].
        destruct (remove_all_matching (st_self st) (Some a) None); simpl in H;
          [now injection H as <- _ | discriminate].
  - destruct (names c) as [ns|]; [| discriminate].
    destruct (scan_overlap en force c ns st); simpl in H;
      [now injection H as <- _ | discriminate].
Qed.

Lemma extends_by_refl (st : AddState) : extends_by st st [] 0 0.
Proof.
  unfold extends_by. now rewrite app_nil_r, !Nat.add_0_r.
Qed.

(** Two runs of the scan for overlaps, from any two states, add the same
    entries and the same counts. *)
Lemma scan_overlap_effect (c : HostsEntry) (ns : list string) :
  forall st st' st0 st0',
    scan_overlap en force c ns st = Ok st' ->
    scan_overlap en force c ns st0 = Ok st0' ->
    exists imps d r, extends_by st st' imps d r /\ extends_by st0 st0' imps d r.
Proof.
  induction ns as [|n ns IH]; intros st st' st0 st0' H H0; simpl in H, H0.
  - injection H as <-. injection H0 as <-.
    exists [], 0, 0. split; apply extends_by_refl.
  - destruct (overlaps en n).
    + destruct force; simpl in H, H0.
      * destruct (remove_all_matching (st_self st) None (Some n)) as [s1|];
          [| discriminate].
        destruct (remove_all_matching (st_self st0) None (Some n)) as [s2|];
          [| discriminate].
        simpl in H, H0.
        destruct (IH _ _ _ _ H H0) as [imps [d [r [[E1 [E2 E3]] [F1 [F2 F3]]]]]].
        exists (c :: imps), d, (S r). simpl in *. unfold extends_by.
        rewrite E1, E2, E3, F1, F2, F3, <- !app_assoc. simpl.
        repeat split; lia.
      * destruct (IH _ _ _ _ H H0) as [imps [d [r [[E1 [E2 E3]] [F1 [F2 F3]]]]]].
        exists imps, (S d), r. simpl in *. unfold extends_by.
        rewrite E1, E2, E3, F1, F2, F3. repeat split; lia.
    + injection H as <-. injection H0 as <-.
      exists [c], 0, 0. unfold extends_by. simpl. repeat split; lia.
Qed.

Lemma scan_block_names_effect (c : HostsEntry) (ns : list string) :
  forall st st' st0 st0' b b0,
    scan_block_names en force c ns st = Ok (b, st') ->
    scan_block_names en force c ns st0 = Ok (b0, st0') ->
    exists imps d r, extends_by st st' imps d r /\ extends_by st0 st0' imps d r.
Proof.
  induction ns as [|n ns IH]; intros st st' st0 st0' b b0 H H0; simpl in H, H0.
  - injection H as _ <-. injection H0 as _ <-.
    exists [], 0, 0. split; apply extends_by_refl.
  - destruct (str_in n en); [| exact (IH _ _ _ _ _ _ H H0)].
    destruct force.
    + destruct (remove_all_matching (st_self st) None (Some n)) as [s1|];
        [| discriminate].
      destruct (remove_all_matching (st_self st0) None (Some n)) as [s2|];
        [| discriminate].
      simpl in H, H0. injection H as _ <-. injection H0 as _ <-.
      exists [c], 0, 0. unfold extends_by. simpl. repeat split; lia.
    + injection H as _ <-. injection H0 as _ <-.
      exists [], 1, 0. unfold extends_by. simpl.
      rewrite !app_nil_r. repeat split; lia.
Qed.

Lemma extends_by_append (st st' : AddState) (c : HostsEntry) (imps : list HostsEntry)
    (d r : nat) :
  extends_by st st' imps d r ->
  extends_by st (import_append c st') (imps ++ [c]) d r.
Proof.
  unfold extends_by. simpl. intros [E1 [E2 E3]].
  now rewrite E1, E2, E3, app_assoc.
Qed.

(** The same for the whole body of the loop: what a candidate adds to
    [import_entries] and to the counters does not depend on the state the
    body starts from. *)
Lemma add_entry_effect (c : HostsEntry) (st st' st0 st0' : AddState) (k k0 : ctl) :
  add_entry ea en force st c = Ok (k, st') ->
  add_entry ea en force st0 c = Ok (k0, st0') ->
  exists imps d r, extends_by st st' imps d r /\ extends_by st0 st0' imps d r.
Proof.
  unfold add_entry. intros H H0.
  destruct (match address c with
            | Some a => str_in a block_addresses
            | None => false
            end).
  - destruct (names c) as [ns|]; [| discriminate].
    destruct (1 <? List.length ns)%nat.
    + destruct (scan_block_names en force c ns st) as [[b s1]|] eqn:H1;
        [| discriminate].
      destruct (scan_block_names en force c ns st0) as [[b0 s2]|] eqn:H2;
        [| discriminate].
      destruct (scan_block_names_effect c ns _ _ _ _ _ _ H1 H2)
        as [imps [d [r [E F]]]].
      rewrite (scan_block_names_found c ns _ _ _ H1) in H.
      rewrite (scan_block_names_found c ns _ _ _ H2) in H0.
      simpl in H, H0.
      destruct (existsb (fun n => str_in n en) ns).
      * injection H as _ <-. injection H0 as _ <-. now exists imps, d, r.
      * injection H as _ <-. injection H0 as _ <-.
        exists (imps ++ [c]), d, r. split; now apply extends_by_append.
    + destruct ns as [|n0 ns']; [discriminate |].
      destruct (str_in n0 en); injection H as _ <-; injection H0 as _ <-.
      * exists [], 1, 0. unfold extends_by. simpl.
        rewrite !app_nil_r. repeat split; lia.
      * exists [c], 0, 0. unfold extends_by. simpl. repeat split; lia.
  - destruct (match address c with
              | Some a => str_in a ea
              | None => false
              end).
    + destruct force; simpl in H, H0.
      * destruct (remove_all_matching (st_self st) (address c) None) as [s1|];
          [| discriminate].
        destruct (remove_all_matching (st_self st0) (address c) None) as [s2|];
          [| discriminate].
        simpl in H, H0. injection H as _ <-. injection H0 as _ <-.
        exists [c], 0, 1. unfold extends_by. simpl. repeat split; lia.
      * injection H as _ <-. injection H0 as _ <-.
        exists [], 1, 0. unfold extends_by. simpl.
        rewrite !app_nil_r. repeat split; lia.
    + destruct (names c) as [ns|]; [| discriminate].
      destruct (scan_overlap en force c ns st) as [s1|] eqn:H1; [| discriminate].
      destruct (scan_overlap en force c ns st0) as [s2|] eqn:H2; [| discriminate].
      simpl in H, H0. injection H as _ <-. injection H0 as _ <-.
      exact (scan_overlap_effect c ns _ _ _ _ H1 H2).
Qed.

(** The body of the loop only ever removes entries from the object. *)
Lemma scan_overlap_keeps (c : HostsEntry) (ns : list string) :
  forall st st',
    scan_overlap en force c ns st = Ok st' ->
    exists keep, entries (st_self st') = filter keep (entries (st_self st)).
Proof.
  pose proof filter_all as Hid.
  induction ns as [|n ns IH]; intros st st' H; simpl in H.
  - injection H as <-. now exists (fun _ => true).
  - destruct (overlaps en n).
    + destruct force; simpl in H.
      * destruct (remove_all_matching (st_self st) None (Some n)) as [s1|] eqn:Hr;
          [| discriminate].
        simpl in H. destruct (IH _ _ H) as [k1 E1].
        destruct (remove_all_matching_keeps _ _ _ _ Hr) as [k2 E2].
        simpl in E1. rewrite E1, E2, filter_filter. eauto.
      * destruct (IH _ _ H) as [k1 E1]. simpl in E1. eauto.
    + injection H as <-. simpl. now exists (fun _ => true).
Qed.

Lemma scan_block_names_keeps (c : HostsEntry) (ns : list string) :
  forall st st' b,
    scan_block_names en force c ns st = Ok (b, st') ->
    exists keep, entries (st_self st') = filter keep (entries (st_self st)).
Proof.
  pose proof filter_all as Hid.
  induction ns as [|n ns IH]; intros st st' b H; simpl in H.
  - injection H as _ <-. now exists (fun _ => true).
  - destruct (str_in n en); [| exact (IH _ _ _ H)].
    destruct force.
    + destruct (remove_all_matching (st_self st) None (Some n)) as [s1|] eqn:Hr;
        [| discriminate].
      simpl in H. injection H as _ <-. simpl.
      exact (remove_all_matching_keeps _ _ _ _ Hr).
    + injection H as _ <-. simpl. now exists (fun _ => true).
Qed.

Lemma add_entry_keeps (c : HostsEntry) (st st' : AddState) (k : ctl) :
  add_entry ea en force st c = Ok (k, st') ->
  exists keep, entries (st_self st') = filter keep (entries (st_self st)).
Proof.
  pose proof filter_all as Hid.
  unfold add_entry. intros H.
  destruct (match address c with
            | Some a => str_in a block_addresses
            | None => false
            end).
  - destruct (names c) as [ns|]; [| discriminate].
    destruct (1 <? List.length ns)%nat.
    + destruct (scan_block_names en force c ns st) as [[b s1]|] eqn:H1;
        [| discriminate].
      simpl in H. destruct (scan_block_names_keeps c ns _ _ _ H1) as [k1 E1].
      destruct b; injection H as _ <-; simpl; eauto.
    + destruct ns as [|n0 ns']; [discriminate |].
      destruct (str_in n0 en); injection H as _ <-; simpl;
        now exists (fun _ => true).
  - destruct (match address c with
              | Some a => str_in a ea
              | None => false
              end).
    + destruct force; simpl in H.
      * destruct (remove_all_matching (st_self st) (address c) None) as [s1|] eqn:Hr;
          [| discriminate].
        simpl in H. injection H as _ <-. simpl.
        exact (remove_all_matching_keeps _ _ _ _ Hr).
      * injection H as _ <-. simpl. now exists (fun _ => true).
    + destruct (names c) as [ns|]; [| discriminate].
      destruct (scan_overlap en force c ns st) as [s1|] eqn:H1; [| discriminate].
      simpl in H. injection H as _ <-.
      exact (scan_overlap_keeps c ns _ _ H1).
Qed.

Lemma add_loop_keeps (cs : list HostsEntry) :
  forall st st',
    add_loop ea en force st cs = Ok st' ->
    exists keep, entries (st_self st') = filter keep (entries (st_self st)).
Proof.
  induction cs as [|c cs IH]; intros st st' H; simpl in H.
  - injection H as <-. exists (fun _ => true). apply filter_all.
  - destruct (add_entry ea en force st c) as [[k s1]|] eqn:H1; [| discriminate].
    simpl in H. destruct (add_entry_keeps c _ _ _ H1) as [k1 E1].
    destruct k.
    + destruct (IH _ _ H) as [k2 E2]. rewrite E2, E1, filter_filter. eauto.
    + injection H as <-. eauto.
Qed.

(** A batch with one more candidate at its end: the run over the longer
    batch is the run over the shorter one, followed by the body of the loop
    on the last candidate unless the loop was left before. *)
Lemma add_loop_snoc (c : HostsEntry) (cs : list HostsEntry) :
  forall st st1,
    add_loop ea en force st cs = Ok st1 ->
    add_loop ea en force st (cs ++ [c])
    = if existsb (stops_batch en) cs then Ok st1
      else add_loop ea en force st1 [c].
Proof.
  induction cs as [|e cs IH]; intros st st1 H; simpl in H.
  - now injection H as <-.
  - change ((e :: cs) ++ [c]) with (e :: (cs ++ [c])).
    cbn [add_loop existsb].
    destruct (add_entry ea en force st e) as [[k s1]|] eqn:H1; [| discriminate].
    cbn [bind] in *. rewrite (add_entry_ctl _ _ _ _ H1) in *.
    destruct (stops_batch en e); cbn [orb].
    + exact H.
    + exact (IH _ _ H).
Qed.

Lemma add_loop_prefix (c : HostsEntry) (cs : list HostsEntry) :
  forall st st2,
    add_loop ea en force st (cs ++ [c]) = Ok st2 ->
    exists st1, add_loop ea en force st cs = Ok st1.
Proof.
  induction cs as [|e cs IH]; intros st st2 H.
  - now exists st.
  - change ((e :: cs) ++ [c]) with (e :: (cs ++ [c])) in H. cbn [add_loop] in *.
    destruct (add_entry ea en force st e) as [[k s1]|]; [| discriminate].
    cbn [bind] in *. destruct k; [exact (IH _ _ H) | eauto].
Qed.

End Snapshot.

Lemma add_loop_single (ea en : list string) (force : bool) (st st' : AddState)
    (c : HostsEntry) :
  add_loop ea en force st [c] = Ok st' ->
  exists k, add_entry ea en force st c = Ok (k, st').
Proof.
  simpl. destruct (add_entry ea en force st c) as [[k s]|]; [| discriminate].
  simpl. destruct k; intros H; injection H as <-; eauto.
Qed.

Lemma add_after_dispose (self : Hosts) (cs : list HostsEntry) (force : bool)
    (st : AddState) :
  add_dispose self cs force = Ok st ->
  add self cs force
  = Ok (with_entries (st_self st)
          (entries (st_self st) ++ filter is_ip_entry (st_import st)),
        mkAddResult (count_type ipv4 (st_import st)) (count_type ipv6 (st_import st))
          0 (st_duplicate st) (st_replaced st)).
Proof.
  intros H. unfold add. rewrite H. simpl. now rewrite add_commit_spec.
Qed.

(** The last candidate of a batch, in full: the run over the batch is the
    run over the candidates before it when one of them ended the loop;
    otherwise the last candidate adds what it adds when it is alone. *)
Lemma add_last_candidate (self : Hosts) (force : bool)
    (cs : list HostsEntry) (c : HostsEntry) (stc st2 : AddState) :
  add_dispose self [c] force = Ok stc ->
  add_dispose self (cs ++ [c]) force = Ok st2 ->
  exists st1,
    add_dispose self cs force = Ok st1
    /\ (if existsb (stops_batch (existing_names_of (entries self))) cs
        then st2 = st1
        else extends_by st1 st2 (st_import stc) (st_duplicate stc) (st_replaced stc))
    /\ (exists keep, entries (st_self st2) = filter keep (entries self)).
Proof.
  unfold add_dispose. intros Hc H2.
  destruct (add_loop_prefix _ _ _ c cs _ _ H2) as [st1 H1].
  exists st1. split; [exact H1 |]. split.
  - rewrite (add_loop_snoc _ _ _ c cs _ _ H1) in H2.
    destruct (existsb (stops_batch (existing_names_of (entries self))) cs).
    + now injection H2 as <-.
    + destruct (add_loop_single _ _ _ _ _ _ H2) as [k Hk].
      destruct (add_loop_single _ _ _ _ _ _ Hc) as [k0 Hk0].
      destruct (add_entry_effect _ _ _ c _ _ _ _ _ _ Hk Hk0)
        as [imps [d [r [E [F1 [F2 F3]]]]]].
      simpl in F1, F2, F3. now rewrite F1, F2, F3.
  - exact (add_loop_keeps _ _ _ _ _ _ H2).
Qed.

(** C3, as the code has it.  A candidate at the end of a batch, reached by
    the loop, is judged against the names and addresses the collection had
    before the call: it adds to [import_entries], to the duplicates and to
    the replacements exactly what it adds when it is the only candidate of
    a call on the collection as it was before the call, whatever the
    earlier candidates of the batch inserted or removed.  During the loop
    entries are only removed from the collection; the accepted candidates
    are appended after the loop, in the order of [import_entries]. *)
Theorem add_judges_against_precall_snapshot (self : Hosts) (force : bool)
    (cs : list HostsEntry) (c : HostsEntry) (stc st2 : AddState) :
  existsb (stops_batch (existing_names_of (entries self))) cs = false ->
  add_dispose self [c] force = Ok stc ->
  add_dispose self (cs ++ [c]) force = Ok st2 ->
  exists st1,
    add_dispose self cs force = Ok st1
    /\ extends_by st1 st2 (st_import stc) (st_duplicate stc) (st_replaced stc)
    /\ (exists keep, entries (st_self st2) = filter keep (entries self))
    /\ add self (cs ++ [c]) force
       = Ok (with_entries (st_self st2)
               (entries (st_self st2) ++ filter is_ip_entry (st_import st2)),
             mkAddResult (count_type ipv4 (st_import st2))
               (count_type ipv6 (st_import st2)) 0
               (st_duplicate st2) (st_replaced st2)).
Proof.
  intros Hgo Hc H2.
  destruct (add_last_candidate self force cs c stc st2 Hc H2) as [st1 [H1 [He Hk]]].
  rewrite Hgo in He.
  exists st1. repeat split; try assumption; try apply He.
  now apply add_after_dispose.
Qed.

Lemma add_judges_against_precall_snapshot_witness :
  exists st1,
    add_dispose plain_hosts [db_candidate] true = Ok st1
    /\ extends_by st1 (disposed plain_hosts ([db_candidate] ++ [db_candidate2]) true)
         (st_import (disposed plain_hosts [db_candidate2] true))
         (st_duplicate (disposed plain_hosts [db_candidate2] true))
         (st_replaced (disposed plain_hosts [db_candidate2] true))
    /\ (exists keep,
          entries (st_self (disposed plain_hosts ([db_candidate] ++ [db_candidate2]) true))
          = filter keep (entries plain_hosts))
    /\ add plain_hosts ([db_candidate] ++ [db_candidate2]) true
       = Ok (with_entries
               (st_self (disposed plain_hosts ([db_candidate] ++ [db_candidate2]) true))
               (entries
                  (st_self (disposed plain_hosts ([db_candidate] ++ [db_candidate2]) true))
                ++ filter is_ip_entry
                     (st_import
                        (disposed plain_hosts ([db_candidate] ++ [db_candidate2]) true))),
             mkAddResult
               (count_type ipv4
                  (st_import (disposed plain_hosts ([db_candidate] ++ [db_candidate2]) true)))
               (count_type ipv6
                  (st_import (disposed plain_hosts ([db_candidate] ++ [db_candidate2]) true)))
               0
               (st_duplicate (disposed plain_hosts ([db_candidate] ++ [db_candidate2]) true))
               (st_replaced (disposed plain_hosts ([db_candidate] ++ [db_candidate2]) true))).
Proof.
  apply (add_judges_against_precall_snapshot plain_hosts true [db_candidate]
           db_candidate2); reflexivity.
Defined.

(** C3, as the specification words it, fails.  With [force], two candidates for the
    address 10.0.0.5, which the collection binds: the first removes the old
    entry; the second is still found among the existing addresses and
    counted as a second replacement.  Judged against the collection minus
    what the call has removed, the second would be a new address and only
    one replacement would be counted. *)
Lemma add_snapshot_ignores_removals :
  add plain_hosts [db_candidate; db_candidate2] true
  = Ok (with_entries plain_hosts [localhost_entry; db_candidate; db_candidate2],
        mkAddResult 2 0 0 0 2)
  /\ (exists st, add_dispose plain_hosts [db_candidate; db_candidate2] true = Ok st
                 /\ st_replaced st = 2)
  /\ (exists st, add_dispose_live plain_hosts [db_candidate; db_candidate2] true = Ok st
                 /\ st_replaced st = 1)
  /\ add_dispose plain_hosts [db_candidate; db_candidate2] true
     <> add_dispose_live plain_hosts [db_candidate; db_candidate2] true.
Proof.
  split; [vm_compute; reflexivity |].
  split; [eexists; split; vm_compute; reflexivity |].
  split; [eexists; split; vm_compute; reflexivity |].
  vm_compute. discriminate.
Qed.

(** Insertions of the same call are not seen either: the same new entry
    twice in one batch is accepted twice. *)
Example add_same_candidate_twice :
  add plain_hosts [web_candidate; web_candidate] false
  = Ok (with_entries plain_hosts
          [localhost_entry; db_entry; web_candidate; web_candidate],
        mkAddResult 2 0 0 0 0).
Proof.
  vm_compute. reflexivity.
Qed.

(** With a readable file the import goes through [add] and [write]: two
    lines skipped, one refused, one duplicate, one entry added, and the
    hosts file rewritten. *)
Example import_file_readable :
  match import_file is_ipv4 is_ipv6 valid_hostnames plain_hosts import_fs 100
          "/tmp/import" with
  | Ok (self, fs, report) =>
      entries self
      = [localhost_entry; db_entry;
         mkHostsEntry 100 ipv4 (Some "10.0.0.9") None (Some ["web9"])]
      /\ file fs "/etc/hosts"
         = Some ("127.0.0.1" ++ TAB ++ "localhost" ++ NL
                 ++ "10.0.0.5" ++ TAB ++ "db1 db2" ++ NL
                 ++ "10.0.0.9" ++ TAB ++ "web9" ++ NL)%string
      /\ report = ImportSuccess 2 1 (mkAddResult 1 0 0 1 0) (mkWriteResult 3 0 0 3 0)
  | Raise _ => False
  end.
Proof.
  vm_compute. repeat split.
Qed.

(** * Further properties of the code *)

(** ** [dedupe_list] *)

Lemma dedupe_from_NoDup (seq seen : list string) : NoDup (dedupe_from seen seq).
Proof.
  revert seen. induction seq as [|x rest IH]; intros seen; simpl.
  - constructor.
  - destruct (str_in x seen); [apply IH |].
    constructor; [| apply IH].
    rewrite dedupe_from_In. simpl. tauto.
Qed.

(** X1.  [dedupe_list] returns a list without repetition that has exactly
    the elements of its argument. *)
Theorem dedupe_list_is_a_set (seq : list string) :
  NoDup (dedupe_list seq) /\ forall x, In x (dedupe_list seq) <-> In x seq.
Proof.
  split.
  - apply dedupe_from_NoDup.
  - intros x. unfold dedupe_list. rewrite dedupe_from_In. simpl. tauto.
Qed.

Lemma dedupe_from_fresh (seq seen : list string) :
  NoDup seq -> (forall x, In x seq -> ~ In x seen) -> dedupe_from seen seq = seq.
Proof.
  revert seen. induction seq as [|x rest IH]; intros seen Hnd Hfresh; simpl.
  - reflexivity.
  - inversion Hnd as [|y l Hx Hrest]; subst.
    assert (Hs : str_in x seen = false).
    { apply str_in_not_In. apply Hfresh. now left. }
    rewrite Hs. f_equal. apply IH; [assumption |].
    intros z Hz [Heq | Hin].
    + subst z. contradiction.
    + apply (Hfresh z); [now right | assumption].
Qed.

(** X2.  [dedupe_list] keeps the order of the first occurrences: a list
    without repetition comes back as it is, so the function is
    idempotent. *)
Theorem dedupe_list_fixes_sets (seq : list string) :
  NoDup seq -> dedupe_list seq = seq.
Proof.
  intros H. apply dedupe_from_fresh; [assumption | intros x _ []].
Qed.

Lemma dedupe_list_fixes_sets_witness :
  dedupe_list ["db1"; "db2"; "localhost"] = ["db1"; "db2"; "localhost"].
Proof.
  apply dedupe_list_fixes_sets.
  repeat constructor; simpl; intuition discriminate.
Defined.

(** ** [exists] and [remove_all_matching] by address *)

Lemma exists_loop_by_address (l : list HostsEntry) (a : string) :
  a <> EmptyString ->
  exists_loop l (Some a) None = Ok (existsb (address_is a) l).
Proof.
  intros Ha. apply str_empty_false in Ha.
  induction l as [|x l IH]; simpl; [reflexivity |].
  rewrite Ha. simpl. destruct (address_is a x); simpl; [reflexivity | exact IH].
Qed.

Lemma address_is_spec (a : string) (x : HostsEntry) :
  address_is a x = true <-> address x = Some a.
Proof.
  unfold address_is. destruct (address x) as [b|].
  - rewrite String.eqb_eq. split; congruence.
  - split; discriminate.
Qed.

(** X3.  Asked for an address only, [exists] never raises, whatever the
    collection holds, and answers [True] exactly when some entry has that
    address. *)
Theorem exists_by_address (self : Hosts) (a : string) :
  a <> EmptyString ->
  exists b,
    Hosts_exists self (Some a) None = Ok b
    /\ (b = true <-> exists x, In x (entries self) /\ address x = Some a).
Proof.
  intros Ha. exists (existsb (address_is a) (entries self)). split.
  - now apply exists_loop_by_address.
  - rewrite existsb_exists. split; intros [x [Hx H]]; exists x;
      (split; [assumption | now apply address_is_spec]).
Qed.

Lemma exists_by_address_witness :
  exists b,
    Hosts_exists sample_hosts (Some "10.0.0.5") None = Ok b
    /\ (b = true <-> exists x, In x (entries sample_hosts) /\ address x = Some "10.0.0.5").
Proof.
  apply exists_by_address. discriminate.
Defined.

(** X4.  Removing by address alone never raises; it removes exactly the
    entries with that address, keeps the others in their order, and
    afterwards [exists] no longer finds the address. *)
Theorem remove_by_address_then_exists (self : Hosts) (a : string) :
  a <> EmptyString ->
  exists self',
    remove_all_matching self (Some a) None = Ok self'
    /\ entries self' = filter (fun x => negb (address_is a x)) (entries self)
    /\ hosts_path self' = hosts_path self
    /\ Hosts_exists self' (Some a) None = Ok false.
Proof.
  intros Ha. eexists. split; [now apply remove_all_matching_by_address |].
  split; [reflexivity |]. split; [reflexivity |].
  unfold Hosts_exists. rewrite exists_loop_by_address by assumption. f_equal.
  simpl. induction (entries self) as [|x l IH]; simpl; [reflexivity |].
  destruct (address_is a x) eqn:Hx; simpl; [exact IH | now rewrite Hx].
Qed.

Lemma remove_by_address_then_exists_witness :
  exists self',
    remove_all_matching sample_hosts (Some "10.0.0.5") None = Ok self'
    /\ entries self'
       = filter (fun x => negb (address_is "10.0.0.5" x)) (entries sample_hosts)
    /\ hosts_path self' = hosts_path sample_hosts
    /\ Hosts_exists self' (Some "10.0.0.5") None = Ok false.
Proof.
  apply remove_by_address_then_exists. discriminate.
Defined.

(** ** [remove_all_matching] with a name *)

(** X5.  With an address and a name, only the entries at that address are
    asked for their names: when each of them has a name list (as in every
    collection read from a file, where comments and blanks have no
    address), the call removes exactly the entries at that address that
    carry the name. *)
Theorem remove_by_address_and_name (self : Hosts) (a n : string) :
  a <> EmptyString -> n <> EmptyString ->
  (forall x, In x (entries self) -> address x = Some a -> names x <> None) ->
  remove_all_matching self (Some a) (Some n)
  = Ok (with_entries self
          (filter (fun x => negb (address_is a x && has_name n x)) (entries self))).
Proof.
  intros Ha Hn Hall. unfold remove_all_matching. simpl.
  apply str_empty_false in Ha, Hn. rewrite Ha, Hn. simpl.
  rewrite (comprehension_filter _ (fun x => address_is a x && has_name n x)).
  - simpl. now rewrite remove_each_filter.
  - intros x Hx. destruct (address_is a x) eqn:Hax; [| reflexivity].
    apply address_is_spec in Hax. specialize (Hall x Hx Hax).
    unfold name_in_names, has_name. destruct (names x); [reflexivity | congruence].
Qed.

Lemma remove_by_address_and_name_witness :
  remove_all_matching sample_hosts (Some "10.0.0.5") (Some "db1")
  = Ok (with_entries sample_hosts
          (filter (fun x => negb (address_is "10.0.0.5" x && has_name "db1" x))
             (entries sample_hosts))).
Proof.
  apply remove_by_address_and_name; try discriminate.
  intros x Hx Ha. simpl in Hx.
  destruct Hx as [<- | [<- | [<- | []]]]; discriminate.
Defined.

(** X6.  An argument that is [None] or the empty string is no criterion:
    with no criterion left, [remove_all_matching] changes nothing, even
    when an entry carries the empty name. *)
Theorem remove_without_criteria (self : Hosts) (a n : option string) :
  truthy_str a = false -> truthy_str n = false ->
  remove_all_matching self a n = Ok self.
Proof.
  intros Ha Hn. unfold remove_all_matching.
  destruct a as [a|], n as [n|]; simpl in *; rewrite ?Ha, ?Hn; simpl;
    now rewrite with_entries_same.
Qed.

Lemma remove_without_criteria_witness :
  remove_all_matching sample_hosts (Some EmptyString) None = Ok sample_hosts
  /\ remove_all_matching sample_hosts None (Some EmptyString) = Ok sample_hosts.
Proof.
  split; apply remove_without_criteria; reflexivity.
Defined.

Lemma exists_loop_one_name (l : list HostsEntry) (n : string) :
  (forall x, In x l -> names x <> None) ->
  exists_loop l None (Some [n]) = Ok (existsb (has_name n) l).
Proof.
  induction l as [|x l IH]; intros Hall; simpl; [reflexivity |].
  pose proof (Hall x (or_introl eq_refl)) as Hx.
  unfold name_in_names, has_name in *. destruct (names x) as [ns|]; [| congruence].
  simpl. destruct (str_in n ns); simpl; [reflexivity |].
  apply IH. intros y Hy. apply Hall. now right.
Qed.

(** X7.  On a collection whose entries all have a name list, removing by
    name removes exactly the entries that carry the name, keeps the others
    in their order, and afterwards [exists] no longer finds the name. *)
Theorem remove_by_name_then_exists (self : Hosts) (n : string) :
  n <> EmptyString ->
  (forall x, In x (entries self) -> names x <> None) ->
  exists self',
    remove_all_matching self None (Some n) = Ok self'
    /\ entries self' = filter (fun x => negb (has_name n x)) (entries self)
    /\ Hosts_exists self' None (Some [n]) = Ok false.
Proof.
  intros Hn Hall. eexists. split; [now apply remove_all_matching_by_name |].
  split; [reflexivity |].
  unfold Hosts_exists. simpl. rewrite exists_loop_one_name.
  - f_equal. induction (entries self) as [|x l IH]; simpl; [reflexivity |].
    destruct (has_name n x) eqn:Hx; simpl.
    + apply IH. intros y Hy. apply Hall. now right.
    + rewrite Hx. simpl. apply IH. intros y Hy. apply Hall. now right.
  - intros x Hx. apply filter_In in Hx. apply Hall. tauto.
Qed.

Lemma remove_by_name_then_exists_witness :
  exists self',
    remove_all_matching plain_hosts None (Some "db2") = Ok self'
    /\ entries self' = filter (fun x => negb (has_name "db2" x)) (entries plain_hosts)
    /\ Hosts_exists self' None (Some ["db2"]) = Ok false.
Proof.
  apply remove_by_name_then_exists; [discriminate |].
  intros x Hx. simpl in Hx. destruct Hx as [<- | [<- | []]]; discriminate.
Defined.

Lemma exists_on_named_entries_witness :
  exists b,
    Hosts_exists plain_hosts (Some "10.0.0.9") (Some ["web9"; "db2"]) = Ok b
    /\ (b = true <->
        (exists a x, Some "10.0.0.9" = Some a /\ a <> EmptyString
                     /\ In x (entries plain_hosts) /\ address x = Some a)
        \/ (exists ns n x, Some ["web9"; "db2"] = Some ns /\ In n ns
                           /\ In x (entries plain_hosts) /\ has_name n x = true)).
Proof.
  apply exists_on_named_entries.
  intros x Hx. simpl in Hx. destruct Hx as [<- | [<- | []]]; discriminate.
Defined.

(** ** [add]: what every call keeps *)

Lemma remove_all_matching_path (self self' : Hosts) (a n : option string) :
  remove_all_matching self a n = Ok self' -> hosts_path self' = hosts_path self.
Proof.
  unfold remove_all_matching. intros H.
  match type of H with
  | bind ?m _ = _ => destruct m as [to_remove|]; [| discriminate]
  end.
  simpl in H.
  destruct (remove_each to_remove (entries self)); [| discriminate].
  simpl in H. now injection H as <-.
Qed.

Lemma count_ip_entries (l : list HostsEntry) :
  List.length (filter is_ip_entry l) = count_type ipv4 l + count_type ipv6 l.
Proof.
  unfold count_type, is_ip_entry. induction l as [|x l IH]; simpl; [reflexivity |].
  destruct (entry_type x); simpl; lia.
Qed.

Section AddInvariants.

Variables (ea en : list string) (force : bool).

Lemma scan_overlap_grows (c : HostsEntry) (ns : list string) :
  forall st st',
    scan_overlap en force c ns st = Ok st' ->
    hosts_path (st_self st') = hosts_path (st_self st)
    /\ exists k, st_import st' = st_import st ++ repeat c k.
Proof.
  induction ns as [|n ns IH]; intros st st' H; simpl in H.
  - injection H as <-. split; [reflexivity |]. exists 0. simpl. now rewrite app_nil_r.
  - destruct (overlaps en n).
    + destruct force; simpl in H.
      * destruct (remove_all_matching (st_self st) None (Some n)) as [s1|] eqn:Hr;
          [| discriminate].
        simpl in H. destruct (IH _ _ H) as [Hp [k Hk]]. simpl in Hp, Hk.
        split; [now rewrite Hp, (remove_all_matching_path _ _ _ _ Hr) |].
        exists (S k). rewrite Hk, <- app_assoc. reflexivity.
      * destruct (IH _ _ H) as [Hp [k Hk]]. simpl in Hp, Hk. eauto.
    + injection H as <-. split; [reflexivity |]. now exists 1.
Qed.

Lemma scan_block_names_grows (c : HostsEntry) (ns : list string) :
  forall st st' b,
    scan_block_names en force c ns st = Ok (b, st') ->
    hosts_path (st_self st') = hosts_path (st_self st)
    /\ exists k, st_import st' = st_import st ++ repeat c k.
Proof.
  induction ns as [|n ns IH]; intros st st' b H; simpl in H.
  - injection H as _ <-. split; [reflexivity |]. exists 0. simpl. now rewrite app_nil_r.
  - destruct (str_in n en); [| exact (IH _ _ _ H)].
    destruct force.
    + destruct (remove_all_matching (st_self st) None (Some n)) as [s1|] eqn:Hr;
        [| discriminate].
      simpl in H. injection H as _ <-. simpl.
      split; [exact (remove_all_matching_path _ _ _ _ Hr) | now exists 1].
    + injection H as _ <-. split; [reflexivity |]. exists 0. simpl.
      now rewrite app_nil_r.
Qed.

Lemma add_entry_grows (c : HostsEntry) (st st' : AddState) (k : ctl) :
  add_entry ea en force st c = Ok (k, st') ->
  hosts_path (st_self st') = hosts_path (st_self st)
  /\ exists m, st_import st' = st_import st ++ repeat c m.
Proof.
  unfold add_entry. intros H.
  destruct (match address c with
            | Some a => str_in a block_addresses
            | None => false
            end).
  - destruct (names c) as [ns|]; [| discriminate].
    destruct (1 <? List.length ns)%nat.
    + destruct (scan_block_names en force c ns st) as [[b s1]|] eqn:H1;
        [| discriminate].
      simpl in H. destruct (scan_block_names_grows c ns _ _ _ H1) as [Hp [m Hm]].
      destruct b; injection H as _ <-; simpl.
      * eauto.
      * split; [assumption |]. exists (m + 1).
        rewrite Hm, repeat_app, app_assoc. reflexivity.
    + destruct ns as [|n0 ns']; [discriminate |].
      destruct (str_in n0 en); injection H as _ <-; simpl;
        (split; [reflexivity |]).
      * exists 0. simpl. now rewrite app_nil_r.
      * now exists 1.
  - destruct (match address c with
              | Some a => str_in a ea
              | None => false
              end).
    + destruct force; simpl in H.
      * destruct (remove_all_matching (st_self st) (address c) None) as [s1|] eqn:Hr;
          [| discriminate].
        simpl in H. injection H as _ <-. simpl.
        split; [exact (remove_all_matching_path _ _ _ _ Hr) | now exists 1].
      * injection H as _ <-. split; [reflexivity |]. exists 0. simpl.
        now rewrite app_nil_r.
    + destruct (names c) as [ns|]; [| discriminate].
      destruct (scan_overlap en force c ns st) as [s1|] eqn:H1; [| discriminate].
      simpl in H. injection H as _ <-.
      exact (scan_overlap_grows c ns _ _ H1).
Qed.

Lemma add_loop_grows (cs : list HostsEntry) :
  forall st st',
    add_loop ea en force st cs = Ok st' ->
    hosts_path (st_self st') = hosts_path (st_self st)
    /\ exists imps, st_import st' = st_import st ++ imps
                    /\ forall x, In x imps -> In x cs.
Proof.
  induction cs as [|c cs IH]; intros st st' H; simpl in H.
  - injection H as <-. split; [reflexivity |]. exists []. split; [| intros x []].
    now rewrite app_nil_r.
  - destruct (add_entry ea en force st c) as [[k s1]|] eqn:H1; [| discriminate].
    simpl in H. destruct (add_entry_grows c _ _ _ H1) as [Hp [m Hm]].
    assert (Hc : forall x, In x (repeat c m) -> In x (c :: cs)).
    { intros x Hx. apply repeat_spec in Hx. subst x. now left. }
    destruct k.
    + destruct (IH _ _ H) as [Hp' [imps [Hi Hin]]].
      split; [congruence |]. exists (repeat c m ++ imps). split.
      * rewrite Hi, Hm, app_assoc. reflexivity.
      * intros x Hx. apply in_app_or in Hx. destruct Hx as [Hx | Hx]; [auto |].
        right. now apply Hin.
    + injection H as <-. split; [assumption |]. exists (repeat c m). auto.
Qed.

End AddInvariants.

(** X9.  Whatever the batch and whatever [force], a call of [add] that
    returns leaves the path alone and reports no invalid entry; the new
    entry list is what is left of the old one, in the old order, followed
    by appended candidates; every appended entry is a candidate of type
    ipv4 or ipv6, and the two counters add up to the number of appended
    entries. *)
Theorem add_accounting (self self' : Hosts) (cs : list HostsEntry) (force : bool)
    (r : AddResult) :
  add self cs force = Ok (self', r) ->
  hosts_path self' = hosts_path self
  /\ invalid_count r = 0
  /\ exists keep acc,
       entries self' = filter keep (entries self) ++ acc
       /\ (forall x, In x acc -> In x cs /\ is_ip_entry x = true)
       /\ List.length acc = ipv4_count r + ipv6_count r.
Proof.
  intros H. unfold add in H.
  destruct (add_dispose self cs force) as [st|] eqn:Hd; [| discriminate].
  simpl in H. rewrite add_commit_spec in H. injection H as <- <-. simpl.
  unfold add_dispose in Hd.
  destruct (add_loop_grows _ _ _ _ _ _ Hd) as [Hp [imps [Hi Hin]]].
  destruct (add_loop_keeps _ _ _ _ _ _ Hd) as [keep Hk].
  simpl in Hp, Hi, Hk. subst imps.
  split; [assumption |]. split; [reflexivity |].
  exists keep, (filter is_ip_entry (st_import st)). rewrite Hk.
  split; [reflexivity |]. split.
  - intros x Hx. apply filter_In in Hx. destruct Hx as [Hx Hip]. auto.
  - apply count_ip_entries.
Qed.

Lemma add_accounting_witness :
  hosts_path
    (with_entries plain_hosts [localhost_entry; db_candidate; db_candidate2])
  = hosts_path plain_hosts
  /\ invalid_count (mkAddResult 2 0 0 0 2) = 0
  /\ exists keep acc,
       entries (with_entries plain_hosts [localhost_entry; db_candidate; db_candidate2])
       = filter keep (entries plain_hosts) ++ acc
       /\ (forall x, In x acc ->
             In x [db_candidate; db_candidate2] /\ is_ip_entry x = true)
       /\ List.length acc
          = ipv4_count (mkAddResult 2 0 0 0 2) + ipv6_count (mkAddResult 2 0 0 0 2).
Proof.
  apply (add_accounting plain_hosts _ [db_candidate; db_candidate2] true).
  vm_compute. reflexivity.
Defined.

(** ** [add] without [force] *)

Section AddNoForce.

Variables (ea en : list string).

Lemma scan_block_names_no_force (c : HostsEntry) (ns : list string) (st : AddState) :
  scan_block_names en false c ns st
  = Ok (existsb (fun n => str_in n en) ns,
        if existsb (fun n => str_in n en) ns then count_duplicate st else st).
Proof.
  induction ns as [|n ns IH]; simpl; [reflexivity |].
  destruct (str_in n en); simpl; [reflexivity | exact IH].
Qed.

Lemma scan_overlap_no_force (c : HostsEntry) (ns : list string) :
  forall st, exists st',
    scan_overlap en false c ns st = Ok st'
    /\ st_self st' = st_self st /\ st_replaced st' = st_replaced st.
Proof.
  induction ns as [|n ns IH]; intros st; simpl.
  - now exists st.
  - destruct (overlaps en n); simpl.
    + destruct (IH (count_duplicate st)) as [st' [H [Hs Hr]]]. now exists st'.
    + now exists (import_append c st).
Qed.

Lemma add_entry_no_force (c : HostsEntry) (st : AddState) (n : string)
    (ns : list string) :
  names c = Some (n :: ns) ->
  exists k st',
    add_entry ea en false st c = Ok (k, st')
    /\ st_self st' = st_self st /\ st_replaced st' = st_replaced st.
Proof.
  intros Hns. unfold add_entry. rewrite Hns.
  destruct (match address c with
            | Some a => str_in a block_addresses
            | None => false
            end).
  - destruct (1 <? List.length (n :: ns))%nat.
    + rewrite scan_block_names_no_force. cbn [bind].
      destruct (existsb (fun m => str_in m en) (n :: ns));
        do 2 eexists; repeat split.
    + destruct (str_in n en); do 2 eexists; repeat split.
  - destruct (match address c with
              | Some a => str_in a ea
              | None => false
              end); cbn [negb].
    + do 2 eexists. repeat split.
    + destruct (scan_overlap_no_force c (n :: ns) st) as [st' [H [Hs Hr]]].
      rewrite H. cbn [bind]. do 2 eexists. repeat split; assumption.
Qed.

Lemma add_loop_no_force (cs : list HostsEntry) :
  (forall c, In c cs -> exists n ns, names c = Some (n :: ns)) ->
  forall st, exists st',
    add_loop ea en false st cs = Ok st'
    /\ st_self st' = st_self st /\ st_replaced st' = st_replaced st.
Proof.
  induction cs as [|c cs IH]; intros Hall st; simpl.
  - now exists st.
  - destruct (Hall c (or_introl eq_refl)) as [n [ns Hns]].
    destruct (add_entry_no_force c st n ns Hns) as [k [s1 [H [Hs Hr]]]].
    rewrite H. simpl. destruct k.
    + destruct (IH (fun x Hx => Hall x (or_intror Hx)) s1) as [st' [H' [Hs' Hr']]].
      exists st'. repeat split; congruence.
    + now exists s1.
Qed.

(** A candidate with one name is counted as a duplicate or appended, and
    the loop goes on. *)
Lemma add_entry_one_name (c : HostsEntry) (st : AddState) (n : string) :
  names c = Some [n] ->
  add_entry ea en false st c = Ok (Next, count_duplicate st)
  \/ add_entry ea en false st c = Ok (Next, import_append c st).
Proof.
  intros Hns. unfold add_entry. rewrite Hns.
  destruct (match address c with
            | Some a => str_in a block_addresses
            | None => false
            end).
  - simpl. destruct (str_in n en); auto.
  - destruct (match address c with
              | Some a => str_in a ea
              | None => false
              end); simpl; [auto |].
    destruct (overlaps en n); auto.
Qed.

Lemma add_loop_one_name (cs : list HostsEntry) :
  (forall c, In c cs -> exists n, names c = Some [n]) ->
  forall st, exists st',
    add_loop ea en false st cs = Ok st'
    /\ st_duplicate st' + List.length (st_import st')
       = st_duplicate st + List.length (st_import st) + List.length cs.
Proof.
  induction cs as [|c cs IH]; intros Hall st; simpl.
  - exists st. split; [reflexivity | lia].
  - destruct (Hall c (or_introl eq_refl)) as [n Hns].
    destruct (add_entry_one_name c st n Hns) as [H | H]; rewrite H; simpl.
    + destruct (IH (fun x Hx => Hall x (or_intror Hx)) (count_duplicate st))
        as [st' [H' Hc]].
      exists st'. split; [assumption |]. simpl in Hc. lia.
    + destruct (IH (fun x Hx => Hall x (or_intror Hx)) (import_append c st))
        as [st' [H' Hc]].
      exists st'. split; [assumption |]. simpl in Hc.
      rewrite length_app in Hc. simpl in Hc. lia.
Qed.

End AddNoForce.

(** X10.  Without [force], [add] never raises on candidates that have a
    non-empty name list, never removes or reorders an entry of the
    collection and never counts a replacement: the old entries come first,
    followed by candidates of type ipv4 or ipv6. *)
Theorem add_without_force_keeps_entries (self : Hosts) (cs : list HostsEntry) :
  (forall c, In c cs -> exists n ns, names c = Some (n :: ns)) ->
  exists acc r,
    add self cs false = Ok (with_entries self (entries self ++ acc), r)
    /\ (forall x, In x acc -> In x cs /\ is_ip_entry x = true)
    /\ replaced_count r = 0.
Proof.
  intros Hall.
  destruct (add_loop_no_force (existing_addresses_of (entries self))
              (existing_names_of (entries self)) cs Hall (mkAddState self [] 0 0))
    as [st [H [Hs Hr]]].
  destruct (add_loop_grows _ _ _ _ _ _ H) as [_ [imps [Hi Hin]]].
  simpl in Hs, Hr, Hi. subst imps.
  exists (filter is_ip_entry (st_import st)). eexists.
  rewrite (add_after_dispose self cs false st H), Hs. simpl.
  split; [reflexivity |]. split; [| assumption].
  intros x Hx. apply filter_In in Hx. destruct Hx as [Hx Hip]. auto.
Qed.

Lemma add_without_force_keeps_entries_witness :
  exists acc r,
    add sample_hosts [mixed_candidate; block_pair_candidate; web_candidate] false
    = Ok (with_entries sample_hosts (entries sample_hosts ++ acc), r)
    /\ (forall x, In x acc ->
          In x [mixed_candidate; block_pair_candidate; web_candidate]
          /\ is_ip_entry x = true)
    /\ replaced_count r = 0.
Proof.
  apply add_without_force_keeps_entries.
  intros c Hc. simpl in Hc.
  destruct Hc as [<- | [<- | [<- | []]]]; simpl; eauto.
Defined.

(** X11.  Without [force], a batch of address entries that have one name
    each is accounted for in full: every candidate is either appended or
    counted as a duplicate, so the duplicates and the two counters of
    appended entries add up to the size of the batch. *)
Theorem add_one_name_batch_accounted (self : Hosts) (cs : list HostsEntry) :
  (forall c, In c cs -> is_ip_entry c = true /\ exists n, names c = Some [n]) ->
  exists self' r,
    add self cs false = Ok (self', r)
    /\ duplicate_count r + ipv4_count r + ipv6_count r = List.length cs.
Proof.
  intros Hall.
  destruct (add_loop_one_name (existing_addresses_of (entries self))
              (existing_names_of (entries self)) cs
              (fun c Hc => proj2 (Hall c Hc)) (mkAddState self [] 0 0))
    as [st [H Hc]].
  destruct (add_loop_grows _ _ _ _ _ _ H) as [_ [imps [Hi Hin]]].
  simpl in Hc, Hi. subst imps.
  do 2 eexists. rewrite (add_after_dispose self cs false st H).
  split; [reflexivity |]. simpl.
  rewrite <- Nat.add_assoc, <- count_ip_entries.
  assert (Hf : filter is_ip_entry (st_import st) = st_import st).
  { clear Hc H. induction (st_import st) as [|x l IH]; simpl; [reflexivity |].
    rewrite (proj1 (Hall x (Hin x (or_introl eq_refl)))). f_equal.
    apply IH. intros y Hy. apply Hin. now right. }
  rewrite Hf. exact Hc.
Qed.

Lemma add_one_name_batch_accounted_witness :
  exists self' r,
    add sample_hosts [db_candidate; web_candidate; tracker_candidate] false
    = Ok (self', r)
    /\ duplicate_count r + ipv4_count r + ipv6_count r
       = List.length [db_candidate; web_candidate; tracker_candidate].
Proof.
  apply add_one_name_batch_accounted.
  intros c Hc. simpl in Hc.
  destruct Hc as [<- | [<- | [<- | []]]]; simpl; eauto.
Defined.

(** ** [add]: block addresses and [force] *)

(** X12.  A block-address candidate with one name that the collection
    already binds is counted as a duplicate and nothing is changed,
    with [force] as without it: [force] has no effect on this branch. *)
Theorem add_block_one_name_ignores_force (self : Hosts) (c : HostsEntry)
    (a n : string) (force : bool) :
  address c = Some a ->
  str_in a block_addresses = true ->
  names c = Some [n] ->
  (exists x, In x (entries self) /\ has_name n x = true) ->
  add self [c] force = Ok (self, mkAddResult 0 0 0 1 0).
Proof.
  intros Ha Hblock Hns [x [Hx Hhas]].
  assert (Hen : str_in n (existing_names_of (entries self)) = true).
  { apply str_in_In, existing_names_In. unfold has_name in Hhas.
    destruct (names x) as [l|] eqn:Hl; [| discriminate].
    exists x, l. repeat split; try assumption. now apply str_in_In. }
  unfold add, add_dispose. simpl. unfold add_entry.
  rewrite Ha, Hblock, Hns. simpl. rewrite Hen. simpl.
  now rewrite with_entries_same.
Qed.

Lemma add_block_one_name_ignores_force_witness :
  add sample_hosts
    [mkHostsEntry 30 ipv4 (Some "0.0.0.0") None (Some ["localhost"])] true
  = Ok (sample_hosts, mkAddResult 0 0 0 1 0).
Proof.
  apply (add_block_one_name_ignores_force sample_hosts _ "0.0.0.0" "localhost" true);
    try reflexivity.
  exists localhost_entry. split; [simpl; tauto | reflexivity].
Defined.

Lemma scan_block_names_first_hit (en : list string) (c : HostsEntry)
    (pre post : list string) (n : string) (st : AddState) (self' : Hosts) :
  (forall m, In m pre -> str_in m en = false) ->
  str_in n en = true ->
  remove_all_matching (st_self st) None (Some n) = Ok self' ->
  scan_block_names en true c (pre ++ n :: post) st
  = Ok (true, import_append c (set_self self' st)).
Proof.
  intros Hpre Hn Hr. induction pre as [|m pre IH]; simpl.
  - now rewrite Hn, Hr.
  - rewrite (Hpre m (or_introl eq_refl)). apply IH.
    intros k Hk. apply Hpre. now right.
Qed.

(** X13.  With [force], a block-address candidate with several names, the
    first known one of which is [n], replaces every entry that carries [n]
    (and no other entry, whatever other names of the candidate are bound)
    and is appended once; the replacement is not counted. *)
Theorem add_block_force_replaces_uncounted (self : Hosts) (c : HostsEntry)
    (a n : string) (pre post : list string) :
  is_ip_entry c = true ->
  address c = Some a ->
  str_in a block_addresses = true ->
  names c = Some (pre ++ n :: post) ->
  (1 <? List.length (pre ++ n :: post))%nat = true ->
  (forall m, In m pre -> forall x, In x (entries self) -> has_name m x = false) ->
  (exists x, In x (entries self) /\ has_name n x = true) ->
  n <> EmptyString ->
  (forall x, In x (entries self) -> names x <> None) ->
  exists r,
    add self [c] true
    = Ok (with_entries self
            (filter (fun x => negb (has_name n x)) (entries self) ++ [c]), r)
    /\ replaced_count r = 0 /\ duplicate_count r = 0.
Proof.
  intros Hip Ha Hblock Hns Hlen Hpre [x [Hx Hhas]] Hne Hall.
  assert (Hen : forall m, str_in m (existing_names_of (entries self)) = true
                          <-> exists y, In y (entries self) /\ has_name m y = true).
  { intros m. rewrite str_in_In, existing_names_In. split.
    - intros [y [l [Hy [Hl Hin]]]]. exists y. split; [assumption |].
      unfold has_name. rewrite Hl. now apply str_in_In.
    - intros [y [Hy Hm]]. unfold has_name in Hm.
      destruct (names y) as [l|] eqn:Hl; [| discriminate].
      exists y, l. repeat split; try assumption. now apply str_in_In. }
  unfold add, add_dispose. simpl. unfold add_entry.
  rewrite Ha, Hblock, Hns, Hlen.
  rewrite (scan_block_names_first_hit _ c pre post n _
             (with_entries self (filter (fun y => negb (has_name n y)) (entries self)))).
  - simpl. unfold is_ip_entry in Hip.
    destruct (entry_type c); simpl in Hip; try discriminate; simpl;
      eexists; repeat split.
  - intros m Hm. destruct (str_in m (existing_names_of (entries self))) eqn:E;
      [| reflexivity].
    apply Hen in E. destruct E as [y [Hy Hmy]].
    rewrite (Hpre m Hm y Hy) in Hmy. discriminate.
  - apply Hen. now exists x.
  - simpl. now apply remove_all_matching_by_name.
Qed.

Lemma add_block_force_replaces_uncounted_witness :
  exists r,
    add plain_hosts
      [mkHostsEntry 31 ipv4 (Some "127.0.0.1") None (Some ["loopback"; "db2"; "localhost"])]
      true
    = Ok (with_entries plain_hosts
            (filter (fun x => negb (has_name "db2" x)) (entries plain_hosts)
             ++ [mkHostsEntry 31 ipv4 (Some "127.0.0.1") None
                   (Some ["loopback"; "db2"; "localhost"])]), r)
    /\ replaced_count r = 0 /\ duplicate_count r = 0.
Proof.
  apply (add_block_force_replaces_uncounted plain_hosts _ "127.0.0.1" "db2"
           ["loopback"] ["localhost"]); try reflexivity; try discriminate.
  - intros m [<- | []] x Hx. simpl in Hx.
    destruct Hx as [<- | [<- | []]]; reflexivity.
  - exists db_entry. split; [simpl; tauto | reflexivity].
  - intros x Hx. simpl in Hx. destruct Hx as [<- | [<- | []]]; discriminate.
Defined.

(** ** [write] *)

Lemma write_entry_writable (index : nat) (st : WriteState) (e : HostsEntry) :
  writable_entry e = true ->
  exists st',
    write_entry index st e = Ok st'
    /\ w_text st' = (w_text st ++ rendered e)%string
    /\ w_written_count st' = index
    /\ w_comments st' = w_comments st + count_type comment [e]
    /\ w_blanks st' = w_blanks st + count_type blank [e]
    /\ w_ipv4 st' = w_ipv4 st + count_type ipv4 [e]
    /\ w_ipv6 st' = w_ipv6 st + count_type ipv6 [e].
Proof.
  unfold writable_entry, write_entry, rendered, format_address_line, count_type.
  intros H. simpl.
  destruct (entry_type e); simpl.
  - destruct (names e); [| discriminate]. simpl. eexists. repeat split; simpl; lia.
  - destruct (names e); [| discriminate]. simpl. eexists. repeat split; simpl; lia.
  - destruct (entry_comment e); [| discriminate]. eexists. repeat split; simpl; lia.
  - eexists. repeat split; simpl; lia.
Qed.

Lemma write_entry_not_writable (index : nat) (st : WriteState) (e : HostsEntry) :
  writable_entry e = false -> write_entry index st e = Raise TypeError.
Proof.
  unfold writable_entry, write_entry, format_address_line. intros H.
  destruct (entry_type e); simpl.
  - destruct (names e); [discriminate | reflexivity].
  - destruct (names e); [discriminate | reflexivity].
  - destruct (entry_comment e); [discriminate | reflexivity].
  - discriminate.
Qed.

Lemma count_type_cons (t : EntryType) (e : HostsEntry) (l : list HostsEntry) :
  count_type t (e :: l) = count_type t [e] + count_type t l.
Proof.
  unfold count_type. simpl. destruct (EntryType_eqb (entry_type e) t); reflexivity.
Qed.

Lemma write_loop_writable (l : list HostsEntry) :
  forallb writable_entry l = true ->
  forall index st, exists st',
    write_loop index st l = Ok st'
    /\ w_text st' = (w_text st ++ concat_strings (map rendered l))%string
    /\ w_written_count st'
       = match l with [] => w_written_count st | _ :: _ => index + List.length l - 1 end
    /\ w_comments st' = w_comments st + count_type comment l
    /\ w_blanks st' = w_blanks st + count_type blank l
    /\ w_ipv4 st' = w_ipv4 st + count_type ipv4 l
    /\ w_ipv6 st' = w_ipv6 st + count_type ipv6 l.
Proof.
  induction l as [|e l IH]; intros Hall index st.
  - exists st. simpl. unfold count_type. simpl.
    repeat split; try lia.
    clear. induction (w_text st) as [|c t IHt]; simpl; [reflexivity | now f_equal].
  - simpl in Hall. apply andb_prop in Hall. destruct Hall as [He Hl].
    destruct (write_entry_writable index st e He)
      as [s1 [H1 [T1 [W1 [C1 [B1 [F1 S1]]]]]]].
    destruct (IH Hl (S index) s1) as [s2 [H2 [T2 [W2 [C2 [B2 [F2 S2]]]]]]].
    exists s2. simpl. rewrite H1. simpl.
    rewrite !(count_type_cons _ e l).
    repeat split; try assumption; try lia.
    + rewrite T2, T1, append_assoc. reflexivity.
    + rewrite W2. destruct l; simpl; lia.
Qed.

Lemma write_loop_not_writable (l : list HostsEntry) :
  forallb writable_entry l = false ->
  forall index st, write_loop index st l = Raise TypeError.
Proof.
  induction l as [|e l IH]; intros Hall index st; simpl in *; [discriminate |].
  destruct (writable_entry e) eqn:He.
  - destruct (write_entry_writable index st e He) as [s1 [H1 _]].
    rewrite H1. simpl. now apply IH.
  - now rewrite write_entry_not_writable.
Qed.






(** ** More on [strip] and [split] *)

Lemma append_empty_r (s : string) : (s ++ EmptyString)%string = s.
Proof.
  induction s as [|c s IH]; simpl; [reflexivity | now rewrite IH].
Qed.

Lemma split_go_tokens (s tok : string) :
  string_forall (fun c => negb (is_space c)) tok = true ->
  forallb is_token (split_go tok s) = true.
Proof.
  revert tok. induction s as [|c s IH]; intros tok Htok; simpl.
  - destruct (str_empty tok) eqn:He; [reflexivity |]. simpl.
    unfold is_token. now rewrite He, Htok.
  - destruct (is_space c) eqn:Hc.
    + destruct (str_empty tok) eqn:He; [now apply IH |]. simpl.
      unfold is_token at 1. rewrite He, Htok. simpl. now apply IH.
    + apply IH. rewrite string_forall_app, Htok. simpl. now rewrite Hc.
Qed.

Lemma split_tokens (s : string) : forallb is_token (split s) = true.
Proof.
  now apply split_go_tokens.
Qed.

Lemma split_go_nil (s tok : string) :
  split_go tok s = [] -> tok = EmptyString /\ string_forall is_space s = true.
Proof.
  revert tok. induction s as [|c s IH]; intros tok H; simpl in *.
  - destruct tok; [auto | discriminate].
  - destruct (is_space c) eqn:Hc.
    + destruct tok; simpl in H; [| discriminate].
      destruct (IH _ H) as [_ Hs]. auto.
    + destruct (IH _ H) as [Ht _]. destruct tok; discriminate.
Qed.

Lemma split_go_first (s tok : string) :
  tok <> EmptyString ->
  exists t ts, split_go tok s = (tok ++ t)%string :: ts.
Proof.
  revert tok. induction s as [|c s IH]; intros tok Htok; simpl.
  - destruct tok; [congruence |]. simpl. exists EmptyString, [].
    now rewrite append_empty_r.
  - destruct (is_space c).
    + destruct tok; [congruence |]. simpl. exists EmptyString. eexists.
      now rewrite append_empty_r.
    + destruct (IH (tok ++ String c EmptyString)%string) as [t [ts H]].
      { destruct tok; discriminate. }
      exists (String c t), ts. now rewrite H, append_snoc.
Qed.

Lemma lstrip_head (s : string) :
  lstrip s = EmptyString
  \/ exists c r, lstrip s = String c r /\ is_space c = false.
Proof.
  induction s as [|c s IH]; simpl; [now left |].
  destruct (is_space c) eqn:Hc; [exact IH |]. right. now exists c, s.
Qed.

(** The first character left by [strip] is the first character of the
    first token. *)
Lemma strip_head (s : string) (c : ascii) (r : string) :
  strip s = String c r ->
  is_space c = false /\ exists t ts, split s = String c t :: ts.
Proof.
  intros H.
  assert (Hc : is_space c = false).
  { unfold strip in H. destruct (lstrip_head (rstrip s)) as [E | [d [q [E Hd]]]];
      rewrite E in H; [discriminate | now injection H as <- _]. }
  split; [assumption |].
  rewrite <- split_strip, H. unfold split. simpl. rewrite Hc.
  destruct (split_go_first r (String c EmptyString)) as [t [ts Ht]]; [discriminate |].
  now exists t, ts.
Qed.

Lemma strip_empty_split (s : string) : strip s = EmptyString -> split s = [].
Proof.
  intros H. now rewrite <- split_strip, H.
Qed.

Lemma rstrip_no_space (t : string) :
  string_forall (fun c => negb (is_space c)) t = true -> rstrip t = t.
Proof.
  induction t as [|c t IH]; simpl; [reflexivity |].
  intros H. apply andb_prop in H. destruct H as [Hc Ht].
  apply negb_true_iff in Hc. now rewrite Hc, (IH Ht).
Qed.

Lemma strip_token (t : string) : is_token t = true -> strip t = t.
Proof.
  intros H. apply is_token_spec in H. destruct H as [_ H].
  unfold strip. rewrite (rstrip_no_space t H).
  destruct t as [|c t]; [reflexivity |]. simpl in *.
  apply andb_prop in H. destruct H as [Hc _].
  apply negb_true_iff in Hc. now rewrite Hc.
Qed.

Lemma map_strip_tokens (l : list string) :
  forallb is_token l = true -> map strip l = l.
Proof.
  induction l as [|t l IH]; simpl; [reflexivity |].
  intros H. apply andb_prop in H. destruct H as [Ht Hl].
  now rewrite (strip_token t Ht), (IH Hl).
Qed.

(** ** [get_entry_type] and [str_to_hostentry] *)

Section ParsingMore.

Variables (v4 v6 : string -> bool) (vh : list string -> bool).

(** X16.  [get_entry_type] never raises: the first chunk it indexes always
    exists.  On a line of whitespace only it answers [blank], and on the
    empty string it answers [None], not [blank]. *)
Theorem get_entry_type_total (hosts_entry : string) :
  exists t,
    get_entry_type v4 v6 hosts_entry = Ok t
    /\ (string_forall is_space hosts_entry = true ->
        t = if str_empty hosts_entry then None else Some blank).
Proof.
  unfold get_entry_type.
  destruct (str_empty hosts_entry) eqn:He; simpl; [now exists None |].
  destruct (strip hosts_entry) as [|c r] eqn:Hs.
  - now exists (Some blank).
  - assert (Hns : string_forall is_space hosts_entry = true -> False).
    { intros Hall. unfold strip in Hs. rewrite (rstrip_spaces _ Hall) in Hs.
      discriminate. }
    destruct (Ascii.eqb c "010"%char); [exists (Some blank); tauto |].
    destruct (Ascii.eqb c "#"%char); [exists (Some comment); tauto |].
    destruct (strip_head _ _ _ Hs) as [_ [t [ts Ht]]].
    rewrite <- Hs, split_strip, Ht.
    destruct (v6 (String c t)); [exists (Some ipv6); tauto |].
    destruct (v4 (String c t)); [exists (Some ipv4); tauto |].
    exists None. tauto.
Qed.

Lemma HostsEntry_init_parsed (id : nat) (t : EntryType) (a : string)
    (l : list string) :
  (t = ipv4 /\ v4 a = true) \/ (t = ipv6 /\ v6 a = true) ->
  HostsEntry_init v4 v6 id (Some t) (Some a) None (Some l)
  = if negb (str_empty a) && truthy_list (Some l)
    then Ok (mkHostsEntry id t (Some a) None (Some l))
    else Raise (Exception "Address and Name(s) must be specified.").
Proof.
  unfold HostsEntry_init.
  intros [[-> Hv] | [-> Hv]]; simpl; rewrite ?Hv;
    destruct (str_empty a); simpl; destruct l; reflexivity.
Qed.

(** X17.  An entry that [str_to_hostentry] returns is an address entry:
    its address is the first token of the line and is accepted by the
    validator of its type (IPv4 is tried first), its names are the other
    tokens, of which there is at least one, and they pass
    [valid_hostnames]. *)
Theorem str_to_hostentry_parsed (id : nat) (entry : string) (e : HostsEntry) :
  str_to_hostentry v4 v6 vh id entry = Ok (Parsed e) ->
  exists a n ns,
    split entry = a :: n :: ns
    /\ e = mkHostsEntry id (entry_type e) (Some a) None (Some (n :: ns))
    /\ vh (n :: ns) = true
    /\ is_address_entry e = true
    /\ ((entry_type e = ipv4 /\ v4 a = true)
        \/ (entry_type e = ipv6 /\ v6 a = true /\ v4 a = false)).
Proof.
  unfold str_to_hostentry. rewrite split_strip. intros H.
  pose proof (split_tokens entry) as Htok.
  destruct (split entry) as [|a rest]; [discriminate |].
  simpl in Htok. apply andb_prop in Htok. destruct Htok as [Ha _].
  apply is_token_spec in Ha. destruct Ha as [Hne _].
  apply str_empty_false in Hne.
  destruct (v4 a) eqn:H4.
  - destruct (vh rest) eqn:Hv; [| discriminate].
    rewrite (HostsEntry_init_parsed id ipv4 a rest) in H by tauto.
    rewrite Hne in H. destruct rest as [|n ns]; simpl in H; [discriminate |].
    injection H as <-. exists a, n, ns. unfold is_address_entry. simpl.
    rewrite Hne. repeat split; auto.
  - destruct (v6 a) eqn:H6; [| discriminate].
    destruct (vh rest) eqn:Hv; [| discriminate].
    rewrite (HostsEntry_init_parsed id ipv6 a rest) in H by tauto.
    rewrite Hne in H. destruct rest as [|n ns]; simpl in H; [discriminate |].
    injection H as <-. exists a, n, ns. unfold is_address_entry. simpl.
    rewrite Hne. repeat split; auto.
Qed.

(** X18.  A line that holds a valid address and nothing else is not
    reported as unparsable: when [valid_hostnames] accepts the empty list,
    [str_to_hostentry] raises the exception of the constructor. *)
Theorem str_to_hostentry_address_only (id : nat) (entry a : string) :
  vh [] = true ->
  split entry = [a] ->
  v4 a = true \/ v6 a = true ->
  str_to_hostentry v4 v6 vh id entry
  = Raise (Exception "Address and Name(s) must be specified.").
Proof.
  intros Hvh Hs Hv. unfold str_to_hostentry. rewrite split_strip, Hs.
  destruct (v4 a) eqn:H4.
  - rewrite Hvh, (HostsEntry_init_parsed id ipv4 a []) by tauto.
    simpl. now rewrite andb_false_r.
  - destruct Hv as [Hv | Hv]; [discriminate |].
    rewrite Hv, Hvh, (HostsEntry_init_parsed id ipv6 a []) by tauto.
    simpl. now rewrite andb_false_r.
Qed.

Lemma str_to_hostentry_raises (id : nat) (entry : string) (e : exn) :
  str_to_hostentry v4 v6 vh id entry = Raise e ->
  split entry = []
  \/ e = Exception "Address and Name(s) must be specified.".
Proof.
  unfold str_to_hostentry. rewrite split_strip. intros H.
  destruct (split entry) as [|a rest]; [now left |]. right.
  destruct (v4 a) eqn:H4.
  - destruct (vh rest); [| discriminate].
    rewrite (HostsEntry_init_parsed id ipv4 a rest) in H by tauto.
    destruct (negb (str_empty a) && truthy_list (Some rest)); simpl in H;
      [discriminate | now injection H as <-].
  - destruct (v6 a) eqn:H6; [| discriminate].
    destruct (vh rest); [| discriminate].
    rewrite (HostsEntry_init_parsed id ipv6 a rest) in H by tauto.
    destruct (negb (str_empty a) && truthy_list (Some rest)); simpl in H;
      [discriminate | now injection H as <-].
Qed.

End ParsingMore.

Lemma str_to_hostentry_parsed_witness :
  exists a n ns,
    split "10.0.0.9   web9 www" = a :: n :: ns
    /\ mkHostsEntry 50 ipv4 (Some "10.0.0.9") None (Some ["web9"; "www"])
       = mkHostsEntry 50
           (entry_type (mkHostsEntry 50 ipv4 (Some "10.0.0.9") None (Some ["web9"; "www"])))
           (Some a) None (Some (n :: ns))
    /\ valid_hostnames (n :: ns) = true
    /\ is_address_entry
         (mkHostsEntry 50 ipv4 (Some "10.0.0.9") None (Some ["web9"; "www"])) = true
    /\ ((entry_type (mkHostsEntry 50 ipv4 (Some "10.0.0.9") None (Some ["web9"; "www"]))
         = ipv4 /\ is_ipv4 a = true)
        \/ (entry_type (mkHostsEntry 50 ipv4 (Some "10.0.0.9") None (Some ["web9"; "www"]))
            = ipv6 /\ is_ipv6 a = true /\ is_ipv4 a = false)).
Proof.
  apply (str_to_hostentry_parsed is_ipv4 is_ipv6 valid_hostnames 50
           "10.0.0.9   web9 www").
  reflexivity.
Defined.

Lemma str_to_hostentry_address_only_witness :
  str_to_hostentry is_ipv4 is_ipv6 valid_hostnames 51 (" ::1" ++ NL)
  = Raise (Exception "Address and Name(s) must be specified.").
Proof.
  apply (str_to_hostentry_address_only is_ipv4 is_ipv6 valid_hostnames 51 _ "::1");
    [reflexivity | reflexivity | right; reflexivity].
Defined.

(** ** [import_file] *)

Lemma partition_head_blank (line : string) :
  string_forall is_space (partition_head "#"%char line) = true ->
  string_forall is_space line = true
  \/ first_char_is "#"%char (lstrip line) = true.
Proof.
  induction line as [|d s IH]; simpl; [now left |].
  destruct (Ascii.eqb_spec d "#"%char) as [-> | Hd]; simpl.
  - intros _. now right.
  - intros H. apply andb_prop in H. destruct H as [Hsp Hs]. rewrite Hsp.
    destruct (IH Hs) as [Hall | Hhash]; [left | right]; simpl; assumption.
Qed.

Lemma strip_keeps_head (s : string) (c : ascii) (r : string) :
  lstrip s = String c r -> exists r', strip s = String c r'.
Proof.
  unfold strip. revert c r. induction s as [|d s IH]; intros c r H.
  - discriminate.
  - cbn [lstrip rstrip] in *. destruct (is_space d) eqn:Hd.
    + destruct (IH c r H) as [r' Hr'].
      destruct (rstrip s) as [|x y] eqn:E; [discriminate |].
      cbn [str_empty andb lstrip]. rewrite Hd. now exists r'.
    + injection H as <- <-. cbn [andb lstrip]. rewrite Hd. now exists (rstrip s).
Qed.

(** The lines [import_file] passes to [str_to_hostentry] always hold a
    token. *)
Lemma import_line_has_token (line : string) :
  str_empty (strip line) || startswith "#" (strip line) = false ->
  split (rstrip (partition_head "#"%char line)) <> [].
Proof.
  intros H Hs. unfold split in Hs. rewrite split_go_rstrip in Hs.
  apply split_go_nil in Hs. destruct Hs as [_ Hs].
  apply orb_false_elim in H. destruct H as [He Hh].
  destruct (partition_head_blank line Hs) as [Hall | Hhash].
  - unfold strip in He. now rewrite (rstrip_spaces line Hall) in He.
  - destruct (lstrip line) as [|c r] eqn:Hl; [discriminate |].
    simpl in Hhash. apply Ascii.eqb_eq in Hhash. subst c.
    destruct (strip_keeps_head line _ _ Hl) as [r' Hr'].
    rewrite Hr' in Hh. unfold startswith in Hh. simpl in Hh.
    destruct r'; discriminate.
Qed.

Lemma str_to_hostentry_address_entry (v4 v6 : string -> bool)
    (vh : list string -> bool) (id : nat) (entry : string) (e : HostsEntry) :
  str_to_hostentry v4 v6 vh id entry = Ok (Parsed e) ->
  is_address_entry e = true.
Proof.
  unfold str_to_hostentry. intros H.
  destruct (split (strip entry)) as [|a rest]; [discriminate |].
  assert (Hinit : forall t, (t = ipv4 \/ t = ipv6) ->
            HostsEntry_init v4 v6 id (Some t) (Some a) None (Some rest) = Ok e ->
            is_address_entry e = true).
  { intros t Ht Hi. unfold HostsEntry_init in Hi.
    destruct Ht as [-> | ->]; simpl in Hi;
      destruct (str_empty a) eqn:Ha; simpl in Hi; try discriminate;
      destruct rest as [|n ns]; simpl in Hi; try discriminate;
      match type of Hi with
      | context [negb ?b] => destruct b; simpl in Hi; try discriminate
      end;
      injection Hi as <-; unfold is_address_entry; simpl; now rewrite Ha. }
  destruct (v4 a).
  - destruct (vh rest); [| discriminate].
    destruct (HostsEntry_init v4 v6 id (Some ipv4) (Some a) None (Some rest))
      as [e'|] eqn:Hi; [| discriminate].
    simpl in H. injection H as <-. apply (Hinit ipv4); auto.
  - destruct (v6 a); [| discriminate].
    destruct (vh rest); [| discriminate].
    destruct (HostsEntry_init v4 v6 id (Some ipv6) (Some a) None (Some rest))
      as [e'|] eqn:Hi; [| discriminate].
    simpl in H. injection H as <-. apply (Hinit ipv6); auto.
Qed.

Lemma write_ok_file (self : Hosts) (fs fs' : FileSystem) (r : WriteResult) :
  write self fs = Ok (fs', r) ->
  fs' = put_file fs (hosts_path self) (concat_strings (map rendered (entries self))).
Proof.
  unfold write. intros H.
  destruct (if path_exists fs (hosts_path self) && writeable fs (hosts_path self)
            then Some "w"
            else if negb (path_exists fs (hosts_path self)) then Some "a+"
            else None); [| discriminate].
  destruct (forallb writable_entry (entries self)) eqn:Hall.
  - destruct (write_loop_writable (entries self) Hall 0
                (mkWriteState EmptyString 0 0 0 0 0)) as [st [Hl [T _]]].
    rewrite Hl in H. simpl in H, T. injection H as <- _. now rewrite T.
  - now rewrite write_loop_not_writable in H.
Qed.

Section Importing.

Variables (v4 v6 : string -> bool) (vh : list string -> bool).

(** X19.  The loop of [import_file] never passes a line without a token to
    [str_to_hostentry], so it never raises [IndexError]: the only exception
    that can leave it is the one the constructor raises for an address
    without names. *)
Theorem import_lines_only_raises_constructor_error (lines : list string)
    (id skipped invalid_count : nat) (import_entries : list HostsEntry) (e : exn) :
  import_lines v4 v6 vh lines id skipped invalid_count import_entries = Raise e ->
  e = Exception "Address and Name(s) must be specified.".
Proof.
  revert id skipped invalid_count import_entries.
  induction lines as [|line rest IH]; intros id sk inv imp H; simpl in H.
  - discriminate.
  - destruct (str_empty (strip line) || startswith "#" (strip line)) eqn:Hskip.
    + exact (IH _ _ _ _ H).
    + destruct (str_to_hostentry v4 v6 vh id (rstrip (partition_head "#"%char line)))
        as [p|e'] eqn:Hp; simpl in H.
      * destruct (parsed_truthy p); exact (IH _ _ _ _ H).
      * injection H as <-.
        destruct (str_to_hostentry_raises v4 v6 vh _ _ _ Hp) as [Hnil | He];
          [| assumption].
        now destruct (import_line_has_token line Hskip).
Qed.

(** X20.  When the loop of [import_file] returns, every line has been
    accounted for exactly once: skipped, counted as invalid, or parsed
    into an entry, which is an address entry. *)
Theorem import_lines_accounts_for_lines (lines : list string)
    (id skipped invalid_count : nat) (import_entries : list HostsEntry)
    (skipped' invalid_count' : nat) (import_entries' : list HostsEntry) :
  import_lines v4 v6 vh lines id skipped invalid_count import_entries
  = Ok (skipped', invalid_count', import_entries') ->
  skipped' + invalid_count' + List.length import_entries'
  = skipped + invalid_count + List.length import_entries + List.length lines
  /\ exists parsed_entries,
       import_entries' = import_entries ++ parsed_entries
       /\ forall x, In x parsed_entries -> is_address_entry x = true.
Proof.
  revert id skipped invalid_count import_entries.
  induction lines as [|line rest IH]; intros id sk inv imp H; simpl in H.
  - injection H as <- <- <-. split; [simpl; lia |].
    exists []. split; [now rewrite app_nil_r | intros x []].
  - destruct (str_empty (strip line) || startswith "#" (strip line)).
    + destruct (IH _ _ _ _ H) as [Hc Hp]. split; [simpl; lia | exact Hp].
    + destruct (str_to_hostentry v4 v6 vh id (rstrip (partition_head "#"%char line)))
        as [p|] eqn:Hp; simpl in H; [| discriminate].
      destruct p as [e| |]; simpl in H.
      * destruct (IH _ _ _ _ H) as [Hc [ps [Hi Hall]]]. split.
        -- rewrite length_app in Hc. simpl in *. lia.
        -- exists (e :: ps). split; [now rewrite Hi, <- app_assoc |].
           intros x [<- | Hx]; [| now apply Hall].
           exact (str_to_hostentry_address_entry _ _ _ _ _ _ Hp).
      * destruct (IH _ _ _ _ H) as [Hc Hps]. split; [simpl; lia | exact Hps].
      * destruct (IH _ _ _ _ H) as [Hc Hps]. split; [simpl; lia | exact Hps].
Qed.

Lemma import_lines_entries (lines : list string) :
  forall id skipped invalid_count import_entries skipped' invalid_count' import_entries',
    import_lines v4 v6 vh lines id skipped invalid_count import_entries
    = Ok (skipped', invalid_count', import_entries') ->
    (forall x, In x import_entries -> is_address_entry x = true) ->
    forall x, In x import_entries' -> is_address_entry x = true.
Proof.
  induction lines as [|line rest IH]; intros id sk inv imp sk' inv' imp' H Hall;
    simpl in H.
  - now injection H as _ _ <-.
  - destruct (str_empty (strip line) || startswith "#" (strip line));
      [exact (IH _ _ _ _ _ _ _ H Hall) |].
    destruct (str_to_hostentry v4 v6 vh id (rstrip (partition_head "#"%char line)))
      as [p|] eqn:Hp; simpl in H; [| discriminate].
    destruct p as [e| |]; simpl in H; try exact (IH _ _ _ _ _ _ _ H Hall).
    apply (IH _ _ _ _ _ _ _ H). intros x Hx. apply in_app_or in Hx.
    destruct Hx as [Hx | [<- | []]]; [now apply Hall |].
    exact (str_to_hostentry_address_entry _ _ _ _ _ _ Hp).
Qed.

(** X21.  A call of [import_file] that returns either reports a failure and
    has changed nothing, or has kept every entry of the collection in
    place, appended address entries after them, counted no replacement and
    rewritten the hosts file, and no other file, with the lines of the new
    entry list. *)
Theorem import_file_keeps_entries (self self' : Hosts) (fs fs' : FileSystem)
    (id : nat) (import_file_path : string) (report : ImportReport) :
  import_file v4 v6 vh self fs id import_file_path = Ok (self', fs', report) ->
  match report with
  | ImportFailed _ => self' = self /\ fs' = fs
  | ImportSuccess _ _ add_result _ =>
      exists acc,
        self' = with_entries self (entries self ++ acc)
        /\ (forall x, In x acc -> is_address_entry x = true)
        /\ replaced_count add_result = 0
        /\ fs' = put_file fs (hosts_path self)
                   (concat_strings (map rendered (entries self ++ acc)))
  end.
Proof.
  unfold import_file. intros H.
  destruct (readable fs import_file_path); [| now injection H as <- <- <-].
  destruct (file fs import_file_path) as [text|]; [| discriminate].
  destruct (import_lines v4 v6 vh (file_lines text) id 0 0 []) as [[[sk inv] imp]|]
    eqn:Hl; [| discriminate].
  simpl in H.
  assert (Hall : forall x, In x imp -> is_address_entry x = true).
  { apply (import_lines_entries _ _ _ _ _ _ _ _ Hl). intros x []. }
  assert (Hnames : forall c, In c imp -> exists n ns, names c = Some (n :: ns)).
  { intros c Hc. apply is_address_entry_names. now apply Hall. }
  destruct (add_loop_no_force (existing_addresses_of (entries self))
              (existing_names_of (entries self)) imp Hnames (mkAddState self [] 0 0))
    as [st [Hadd [Hs Hr]]].
  destruct (add_loop_grows _ _ _ _ _ _ Hadd) as [_ [imps [Hi Hin]]].
  simpl in Hs, Hr, Hi. subst imps.
  rewrite (add_after_dispose self imp false st Hadd) in H. simpl in H.
  rewrite Hs in H.
  destruct (write (with_entries self
                     (entries self ++ filter is_ip_entry (st_import st))) fs)
    as [[fs1 w]|] eqn:Hw; [| discriminate].
  simpl in H. injection H as <- <- <-.
  exists (filter is_ip_entry (st_import st)).
  split; [reflexivity |]. split; [| split; [assumption |]].
  - intros x Hx. apply filter_In in Hx. apply Hall, Hin. tauto.
  - exact (write_ok_file _ _ _ _ Hw).
Qed.

End Importing.

Lemma import_lines_only_raises_constructor_error_witness :
  Exception "Address and Name(s) must be specified."
  = Exception "Address and Name(s) must be specified.".
Proof.
  apply (import_lines_only_raises_constructor_error is_ipv4 is_ipv6 valid_hostnames
           ["# extra"; "10.0.0.9 web9"; "10.0.0.7"; "10.0.0.8 x"] 0 0 0 []).
  reflexivity.
Defined.

Lemma import_lines_accounts_for_lines_witness :
  1 + 1 + List.length [mkHostsEntry 0 ipv4 (Some "10.0.0.9") None (Some ["web9"])]
  = 0 + 0 + List.length (@nil HostsEntry)
    + List.length ["# extra"; "10.0.0.9 web9 # front"; "nothing here"]
  /\ exists parsed_entries,
       [mkHostsEntry 0 ipv4 (Some "10.0.0.9") None (Some ["web9"])]
       = [] ++ parsed_entries
       /\ forall x, In x parsed_entries -> is_address_entry x = true.
Proof.
  apply (import_lines_accounts_for_lines is_ipv4 is_ipv6 valid_hostnames
           ["# extra"; "10.0.0.9 web9 # front"; "nothing here"] 0 0 0 []).
  reflexivity.
Defined.

Lemma import_file_keeps_entries_witness :
  exists acc,
    with_entries plain_hosts
      [localhost_entry; db_entry;
       mkHostsEntry 100 ipv4 (Some "10.0.0.9") None (Some ["web9"])]
    = with_entries plain_hosts (entries plain_hosts ++ acc)
    /\ (forall x, In x acc -> is_address_entry x = true)
    /\ replaced_count (mkAddResult 1 0 0 1 0) = 0
    /\ put_file import_fs "/etc/hosts"
         (concat_strings
            (map rendered
               [localhost_entry; db_entry;
                mkHostsEntry 100 ipv4 (Some "10.0.0.9") None (Some ["web9"])]))
       = put_file import_fs (hosts_path plain_hosts)
           (concat_strings (map rendered (entries plain_hosts ++ acc))).
Proof.
  apply (import_file_keeps_entries is_ipv4 is_ipv6 valid_hostnames plain_hosts _
           import_fs _ 100 "/tmp/import"
           (ImportSuccess 2 1 (mkAddResult 1 0 0 1 0) (mkWriteResult 3 0 0 3 0))).
  vm_compute. reflexivity.
Defined.

(** ** [populate_entries] *)

Section Populate.

Variables (v4 v6 : string -> bool).

Lemma get_entry_type_returns (hosts_entry : string) :
  exists t, get_entry_type v4 v6 hosts_entry = Ok t.
Proof.
  unfold get_entry_type.
  destruct (str_empty hosts_entry); simpl; [eauto |].
  destruct (strip hosts_entry) as [|c r] eqn:Hs; [eauto |].
  destruct (Ascii.eqb c "010"%char); [eauto |].
  destruct (Ascii.eqb c "#"%char); [eauto |].
  destruct (strip_head _ _ _ Hs) as [_ [w [ts Ht]]].
  rewrite <- Hs, split_strip, Ht.
  destruct (v6 (String c w)); [eauto |].
  destruct (v4 (String c w)); eauto.
Qed.

Lemma get_entry_type_cases (hosts_entry : string) (t : EntryType) :
  get_entry_type v4 v6 hosts_entry = Ok (Some t) ->
  match t with
  | blank => True
  | comment => exists r, strip hosts_entry = String "#"%char r
  | _ =>
      exists c w ts,
        split hosts_entry = String c w :: ts
        /\ Ascii.eqb c "#"%char = false
        /\ (if EntryType_eqb t ipv6 then v6 (String c w) = true
            else v6 (String c w) = false /\ v4 (String c w) = true)
  end.
Proof.
  unfold get_entry_type.
  destruct (str_empty hosts_entry); simpl; [discriminate |].
  destruct (strip hosts_entry) as [|c r] eqn:Hs.
  - intros H. now injection H as <-.
  - destruct (Ascii.eqb c "010"%char); [intros H; now injection H as <- |].
    destruct (Ascii.eqb_spec c "#"%char) as [-> | Hc].
    + intros H. injection H as <-. now exists r.
    + destruct (strip_head _ _ _ Hs) as [_ [w [ts Ht]]].
      rewrite <- Hs, split_strip, Ht.
      assert (Hne : Ascii.eqb c "#"%char = false) by now apply Ascii.eqb_neq.
      destruct (v6 (String c w)) eqn:H6.
      * intros H. injection H as <-. exists c, w, ts. simpl. auto.
      * destruct (v4 (String c w)) eqn:H4; [| discriminate].
        intros H. injection H as <-. exists c, w, ts. simpl. auto.
Qed.

(** What one line adds to the entries: nothing, or one entry as the loop
    builds it. *)
Lemma populate_line (line : string) (rest : list string) (id : nat)
    (l : list HostsEntry) :
  (exists id', populate_lines v4 v6 (line :: rest) id l
               = populate_lines v4 v6 rest id' l)
  \/ (exists e, as_read v4 v6 e = true
                /\ populate_lines v4 v6 (line :: rest) id l
                   = populate_lines v4 v6 rest (S id) (l ++ [e]))
  \/ populate_lines v4 v6 (line :: rest) id l
     = Raise (Exception "Address and Name(s) must be specified.").
Proof.
  simpl. destruct (get_entry_type_returns line) as [t Ht].
  rewrite Ht. simpl. destruct t as [t|]; [| left; now exists id].
  pose proof (get_entry_type_cases line t Ht) as Hc.
  assert (Hip : forall k, (k = ipv4 \/ k = ipv6) ->
            (exists c w ts,
               split line = String c w :: ts
               /\ Ascii.eqb c "#"%char = false
               /\ (if EntryType_eqb k ipv6 then v6 (String c w) = true
                   else v6 (String c w) = false /\ v4 (String c w) = true)) ->
            (exists e, as_read v4 v6 e = true
               /\ match split line with
                  | [] => Raise IndexError
                  | chunk0 :: chunks =>
                      e0 <- HostsEntry_init v4 v6 id (Some k) (Some (strip chunk0))
                              None (Some (map strip chunks)) ;;
                      populate_lines v4 v6 rest (S id) (l ++ [e0])
                  end = populate_lines v4 v6 rest (S id) (l ++ [e]))
            \/ match split line with
               | [] => Raise IndexError
               | chunk0 :: chunks =>
                   e0 <- HostsEntry_init v4 v6 id (Some k) (Some (strip chunk0))
                           None (Some (map strip chunks)) ;;
                   populate_lines v4 v6 rest (S id) (l ++ [e0])
               end = Raise (Exception "Address and Name(s) must be specified.")).
  { intros k Hk [c [w [ts [Hs [Hhash Hv]]]]].
    pose proof (split_tokens line) as Htok. rewrite Hs in *.
    simpl in Htok. apply andb_prop in Htok. destruct Htok as [Ha Hts].
    rewrite (strip_token _ Ha), (map_strip_tokens _ Hts).
    rewrite HostsEntry_init_parsed.
    - simpl. destruct ts as [|n ns]; [now right |]. left. simpl.
      eexists. split; [| reflexivity].
      unfold as_read. simpl. rewrite Ha, Hhash. simpl in Hts. rewrite Hts.
      destruct Hk as [-> | ->]; simpl in *.
      + destruct Hv as [-> ->]. reflexivity.
      + now rewrite Hv.
    - destruct Hk as [-> | ->]; simpl in Hv; tauto. }
  destruct t.
  - destruct (Hip ipv4 (or_introl eq_refl) Hc) as [H | H]; auto.
  - destruct (Hip ipv6 (or_intror eq_refl) Hc) as [H | H]; auto.
  - destruct Hc as [r Hr]. right. left.
    assert (Hne : str_empty line = false).
    { destruct line; [discriminate | reflexivity]. }
    unfold HostsEntry_init. simpl. rewrite Hne. simpl.
    eexists. split; [| reflexivity]. unfold as_read. simpl. now rewrite Hr.
  - right. left. eexists. split; [| reflexivity]. reflexivity.
Qed.

Lemma populate_lines_shape (lines : list string) :
  forall id l,
    (exists new, populate_lines v4 v6 lines id l = Ok (l ++ new)
                 /\ forallb (as_read v4 v6) new = true
                 /\ List.length new <= List.length lines)
    \/ populate_lines v4 v6 lines id l
       = Raise (Exception "Address and Name(s) must be specified.").
Proof.
  induction lines as [|line rest IH]; intros id l.
  - left. exists []. simpl. now rewrite app_nil_r.
  - destruct (populate_line line rest id l) as [[id' H] | [[e [He H]] | H]];
      rewrite H; [| | now right].
    + destruct (IH id' l) as [[new [Hn [Hr Hlen]]] | Hn]; [| now right].
      left. exists new. simpl. auto.
    + destruct (IH (S id) (l ++ [e])) as [[new [Hn [Hr Hlen]]] | Hn]; [| now right].
      left. exists (e :: new). simpl. rewrite Hn, <- app_assoc, He, Hr.
      repeat split. lia.
Qed.


(** X23.  A hosts file with a line that holds a valid address and nothing
    else cannot be loaded: when every line before it is read without
    error, [populate_entries] (and with it the constructor of [Hosts])
    raises instead of skipping the line. *)
Theorem populate_lines_address_only (lines : list string) (line a : string) :
  In line lines ->
  split line = [a] ->
  first_char_is "#"%char a = false ->
  v4 a = true \/ v6 a = true ->
  forall id l,
    populate_lines v4 v6 lines id l
    = Raise (Exception "Address and Name(s) must be specified.").
Proof.
  intros Hin Hs Hhash Hv.
  assert (Hline : forall rest id l,
            populate_lines v4 v6 (line :: rest) id l
            = Raise (Exception "Address and Name(s) must be specified.")).
  { intros rest id l. simpl.
    destruct (get_entry_type_returns line) as [t Ht].
    assert (Htype : t = Some ipv4 \/ t = Some ipv6).
    { unfold get_entry_type in Ht.
      destruct (str_empty line) eqn:He; [destruct line; discriminate |].
      simpl in Ht. destruct (strip line) as [|c r] eqn:Hst.
      - rewrite (strip_empty_split line Hst) in Hs. discriminate.
      - destruct (strip_head _ _ _ Hst) as [Hc [w [ts Hw]]].
        rewrite Hs in Hw. injection Hw as -> <-.
        simpl in Hhash. rewrite Hhash in Ht.
        assert (Hnl : Ascii.eqb c "010"%char = false).
        { destruct (Ascii.eqb_spec c "010"%char) as [-> | _];
            [discriminate | reflexivity]. }
        rewrite Hnl in Ht. rewrite <- Hst, split_strip, Hs in Ht.
        destruct (v6 (String c w)); [injection Ht as <-; now right |].
        destruct Hv as [Hv | Hv]; [| discriminate].
        rewrite Hv in Ht. injection Ht as <-. now left. }
    rewrite Ht. simpl.
    pose proof (split_tokens line) as Htok. rewrite Hs in Htok. simpl in Htok.
    rewrite andb_true_r in Htok.
    destruct Htype as [-> | ->]; rewrite Hs; simpl;
      unfold HostsEntry_init; simpl; now rewrite andb_false_r. }
  induction lines as [|x rest IH]; intros id l; [destruct Hin |].
  destruct Hin as [-> | Hin]; [apply Hline |].
  destruct (populate_line x rest id l) as [[id' H] | [[e [He H]] | H]];
    rewrite H; auto.
Qed.

End Populate.

Lemma populate_lines_address_only_witness :
  populate_lines is_ipv4 is_ipv6
    ["# hosts" ++ NL; "127.0.0.1 localhost" ++ NL; "10.0.0.7" ++ NL]%string 0 []
  = Raise (Exception "Address and Name(s) must be specified.").
Proof.
  apply (populate_lines_address_only is_ipv4 is_ipv6 _ ("10.0.0.7" ++ NL)%string
           "10.0.0.7").
  - simpl. tauto.
  - reflexivity.
  - reflexivity.
  - left. reflexivity.
Defined.

(** ** Reading back what [write] wrote *)






Section ReadBack.

Variables (v4 v6 : string -> bool).






End ReadBack.


(** ** [import_url] and the constructor of [Hosts] *)

Section ImportUrlProperties.

Variables (v4 v6 : string -> bool) (vh : list string -> bool).

(** X25.  On the same lines, the loop of [import_url] and the loop of
    [import_file] skip the same lines and build the same entries; the only
    difference is that [import_url] does not count the lines it could not
    parse. *)
Theorem import_url_lines_as_import_lines (lines : list string)
    (id skipped invalid_count : nat) (import_entries : list HostsEntry) :
  import_url_lines v4 v6 vh lines id skipped import_entries
  = match import_lines v4 v6 vh lines id skipped invalid_count import_entries with
    | Ok (skipped', _, import_entries') => Ok (skipped', import_entries')
    | Raise e => Raise e
    end.
Proof.
  revert id skipped invalid_count import_entries.
  induction lines as [|line rest IH]; intros id sk inv imp; simpl; [reflexivity |].
  destruct (str_empty (strip line) || startswith "#" (strip line)); [apply IH |].
  destruct (str_to_hostentry v4 v6 vh id (rstrip (partition_head "#"%char line)))
    as [p|]; simpl; [| reflexivity].
  destruct (parsed_truthy p); apply IH.
Qed.

Lemma import_url_lines_entries (lines : list string) :
  forall id skipped import_entries skipped' import_entries',
    import_url_lines v4 v6 vh lines id skipped import_entries
    = Ok (skipped', import_entries') ->
    (forall x, In x import_entries -> is_address_entry x = true) ->
    forall x, In x import_entries' -> is_address_entry x = true.
Proof.
  induction lines as [|line rest IH]; intros id sk imp sk' imp' H Hall; simpl in H.
  - now injection H as _ <-.
  - destruct (str_empty (strip line) || startswith "#" (strip line));
      [exact (IH _ _ _ _ _ H Hall) |].
    destruct (str_to_hostentry v4 v6 vh id (rstrip (partition_head "#"%char line)))
      as [p|] eqn:Hp; simpl in H; [| discriminate].
    destruct p as [e| |]; simpl in H; try exact (IH _ _ _ _ _ H Hall).
    apply (IH _ _ _ _ _ H). intros x Hx. apply in_app_or in Hx.
    destruct Hx as [Hx | [<- | []]]; [now apply Hall |].
    exact (str_to_hostentry_address_entry _ _ _ _ _ _ Hp).
Qed.

Variable fetch : string -> result string.

(** X26.  A call of [import_url] that returns has kept every entry of the
    collection in place, appended address entries after them, counted no
    replacement and rewritten the hosts file, and no other file, with the
    lines of the new entry list. *)
Theorem import_url_keeps_entries (self self' : Hosts) (fs fs' : FileSystem)
    (id : nat) (url : string) (report : UrlImportReport) :
  import_url v4 v6 vh fetch self fs id url = Ok (self', fs', report) ->
  exists acc,
    self' = with_entries self (entries self ++ acc)
    /\ (forall x, In x acc -> is_address_entry x = true)
    /\ replaced_count (url_add_result report) = 0
    /\ fs' = put_file fs (hosts_path self)
               (concat_strings (map rendered (entries self ++ acc))).
Proof.
  unfold import_url. intros H.
  destruct (fetch url) as [text|]; [| discriminate]. simpl in H.
  match type of H with
  | context [import_url_lines _ _ _ ?ls _ _ _] =>
      destruct (import_url_lines v4 v6 vh ls id 0 []) as [[sk imp]|] eqn:Hl;
        [| discriminate]
  end.
  simpl in H.
  assert (Hall : forall x, In x imp -> is_address_entry x = true).
  { apply (import_url_lines_entries _ _ _ _ _ _ Hl). intros x []. }
  assert (Hnames : forall c, In c imp -> exists n ns, names c = Some (n :: ns)).
  { intros c Hc. apply is_address_entry_names. now apply Hall. }
  destruct (add_loop_no_force (existing_addresses_of (entries self))
              (existing_names_of (entries self)) imp Hnames (mkAddState self [] 0 0))
    as [st [Hadd [Hs Hr]]].
  destruct (add_loop_grows _ _ _ _ _ _ Hadd) as [_ [imps [Hi Hin]]].
  simpl in Hs, Hr, Hi. subst imps.
  rewrite (add_after_dispose self imp false st Hadd) in H. simpl in H.
  rewrite Hs in H.
  destruct (write (with_entries self
                     (entries self ++ filter is_ip_entry (st_import st))) fs)
    as [[fs1 w]|] eqn:Hw; [| discriminate].
  simpl in H. injection H as <- <- <-.
  exists (filter is_ip_entry (st_import st)).
  split; [reflexivity |]. split; [| split; [assumption |]].
  - intros x Hx. apply filter_In in Hx. apply Hall, Hin. tauto.
  - exact (write_ok_file _ _ _ _ Hw).
Qed.

(** X27.  The constructor of [Hosts] uses the path given, or the one of
    the platform when the path given is [None] or empty.  It returns an
    object whose entries are all as [populate_entries] builds them, with no
    entry at all when the file cannot be opened, or it raises the exception
    of [HostsEntry] for an address without names; it raises nothing
    else. *)
Theorem Hosts_init_outcomes (sys_platform : string) (fs : FileSystem) (id : nat)
    (path : option string) :
  (exists self,
     Hosts_init v4 v6 sys_platform fs id path = Ok self
     /\ hosts_path self
        = (if truthy_str path
           then match path with Some p => p | None => EmptyString end
           else determine_hosts_path sys_platform None)
     /\ forallb (as_read v4 v6) (entries self) = true
     /\ (open_read fs (hosts_path self) = Raise IOError -> entries self = []))
  \/ Hosts_init v4 v6 sys_platform fs id path
     = Raise (Exception "Address and Name(s) must be specified.").
Proof.
  unfold Hosts_init, populate_entries. simpl.
  set (p := if truthy_str path
            then match path with Some p => p | None => EmptyString end
            else determine_hosts_path sys_platform None).
  destruct (open_read fs p) as [text|e] eqn:Ho.
  - destruct (populate_lines_shape v4 v6 (file_lines text) id [])
      as [[new [Hn [Hr _]]] | Hn]; rewrite Hn; simpl; [left | now right].
    exists (mkHosts new p). simpl. rewrite Ho. repeat split; [assumption | discriminate].
  - assert (He : e = IOError).
    { unfold open_read in Ho. destruct (file fs p); [destruct (readable fs p) |];
        congruence. }
    subst e. left. exists (mkHosts [] p). simpl. auto.
Qed.

End ImportUrlProperties.

Lemma import_url_keeps_entries_witness :
  exists acc,
    with_entries plain_hosts
      [localhost_entry; db_entry;
       mkHostsEntry 100 ipv4 (Some "10.0.0.9") None (Some ["web9"])]
    = with_entries plain_hosts (entries plain_hosts ++ acc)
    /\ (forall x, In x acc -> is_address_entry x = true)
    /\ replaced_count
         (url_add_result
            (mkUrlImportReport 1 (mkAddResult 1 0 0 0 0) (mkWriteResult 3 0 0 3 0))) = 0
    /\ put_file hosts_fs "/etc/hosts"
         (concat_strings
            (map rendered
               [localhost_entry; db_entry;
                mkHostsEntry 100 ipv4 (Some "10.0.0.9") None (Some ["web9"])]))
       = put_file hosts_fs (hosts_path plain_hosts)
           (concat_strings (map rendered (entries plain_hosts ++ acc))).
Proof.
  apply (import_url_keeps_entries is_ipv4 is_ipv6 valid_hostnames
           (fun _ => Ok ("# list" ++ String "013"%char NL ++ "10.0.0.9 web9" ++ NL)%string)
           plain_hosts _ hosts_fs _ 100 "http://example.org/hosts"
           (mkUrlImportReport 1 (mkAddResult 1 0 0 0 0) (mkWriteResult 3 0 0 3 0))).
  vm_compute. reflexivity.
Defined.

(** ** [add]: the batch after a block-address hit *)

(** X28.  When the first candidate of a batch has a block address, several
    names and one of them is a name of the collection, the call is the
    call with that candidate alone: the rest of the batch has no effect on
    the collection or on the counters, whatever it holds. *)
Theorem add_ignores_batch_after_block_hit (self : Hosts) (c : HostsEntry)
    (rest : list HostsEntry) (force : bool) (a : string) (ns : list string) :
  address c = Some a ->
  str_in a block_addresses = true ->
  names c = Some ns ->
  (1 <? List.length ns)%nat = true ->
  (exists n x, In n ns /\ In x (entries self) /\ has_name n x = true) ->
  add self (c :: rest) force = add self [c] force.
Proof.
  intros Ha Hblock Hns Hlen [n [x [Hn [Hx Hhas]]]].
  unfold add, add_dispose.
  rewrite (add_loop_stops_on_block_hit _ _ force _ c rest a ns Ha Hblock Hns Hlen);
    [reflexivity |].
  exists n. split; [assumption |].
  apply str_in_In, existing_names_In. unfold has_name in Hhas.
  destruct (names x) as [l|] eqn:Hl; [| discriminate].
  exists x, l. repeat split; try assumption. now apply str_in_In.
Qed.

Lemma add_ignores_batch_after_block_hit_witness :
  add plain_hosts [block_pair_candidate; web_candidate; db_candidate] false
  = add plain_hosts [block_pair_candidate] false.
Proof.
  apply (add_ignores_batch_after_block_hit plain_hosts block_pair_candidate
           [web_candidate; db_candidate] false "127.0.0.1" ["localhost"; "loopback"]);
    try reflexivity.
  exists "localhost", localhost_entry. simpl. auto.
Defined.
